(** * update_changelog.py: a shallow embedding and its properties

    The script reads a Keep-a-Changelog dictionary, collects the hook
    versions recorded in one subsection of its unreleased entry, merges them
    with the versions announced in a pre-commit.ci pull request body and
    writes the subsection back.

    Python values are modelled as follows.
    - [str] is a sequence of Unicode code points: [list N].
    - [dict] keeps insertion order, so it is an association list; a lookup
      takes the first entry of a key and an assignment replaces it in place
      or adds the key at the end, which keeps the keys unique.
    - values of no fixed type (the changelog dictionary) are a [value].
    - exceptions are the [Error] side of [result].
    - [re] is a backtracking matcher over the syntax tree of the pattern, with
      the priorities of Python's engine (greedy repetition, first success).
    - the calls into keepachangelog are parameters ([to_dict],
      [to_sorted_semantic]); the text handed to [mdformat] is not modelled
      beyond the dictionary it is made from. *)

From Stdlib Require Import List NArith Arith Bool Lia String Ascii.
From Stdlib Require Import Sorted Permutation.
Import ListNotations.

Set Default Proof Using "Type".

(* ------------------------------------------------------------------ *)
(** ** Python strings *)

Module Py.

Definition str := list N.

(** An ASCII literal as a Python string. *)
Definition lit (s : string) : str :=
  List.map N_of_ascii (list_ascii_of_string s).

(** U+2192 RIGHTWARDS ARROW, the only non-ASCII character of the script. *)
Definition arrow : N := 8594%N.

Definition between (lo hi c : N) : bool := (N.leb lo c && N.leb c hi)%bool.

Fixpoint eqb (a b : str) : bool :=
  match a, b with
  | [], [] => true
  | x :: a', y :: b' => (N.eqb x y && eqb a' b')%bool
  | _, _ => false
  end.

(** [str.isspace] on one character, which is also [\s] of [re] on a [str]
    pattern: the characters CPython's [_PyUnicode_IsWhitespace] accepts. *)
Definition isspace (c : N) : bool :=
  (between 9 13 c || between 28 32 c || N.eqb c 133 || N.eqb c 160
   || N.eqb c 5760 || between 8192 8202 c || N.eqb c 8232 || N.eqb c 8233
   || N.eqb c 8239 || N.eqb c 8287 || N.eqb c 12288)%bool.

(** The line boundaries of [str.splitlines] other than the pair CR LF. *)
Definition islinebreak (c : N) : bool :=
  (between 10 13 c || between 28 30 c || N.eqb c 133
   || N.eqb c 8232 || N.eqb c 8233)%bool.

Fixpoint lstrip (s : str) : str :=
  match s with
  | c :: t => if isspace c then lstrip t else s
  | [] => []
  end.

(** [s.strip()] *)
Definition strip (s : str) : str := rev (lstrip (rev (lstrip s))).

(** [s.splitlines()]: [cur] holds the current line, last character first. *)
Fixpoint splitlines_from (cur : str) (s : str) : list str :=
  match s with
  | [] => match cur with [] => [] | _ => [rev cur] end
  | c :: t =>
      if N.eqb c 13 then
        match t with
        | d :: t' =>
            if N.eqb d 10 then rev cur :: splitlines_from [] t'
            else rev cur :: splitlines_from [] t
        | [] => rev cur :: splitlines_from [] t
        end
      else if islinebreak c then rev cur :: splitlines_from [] t
      else splitlines_from (c :: cur) t
  end.

Definition splitlines (s : str) : list str := splitlines_from [] s.

(** [s.lower()].  The script lowers hook names only, and both parsers take a
    name from a character class of ASCII characters ([merged_names_ascii]);
    on ASCII, [lower] moves [A-Z] to [a-z] and leaves the rest. *)
Definition lower_char (c : N) : N :=
  if between 65 90 c then (c + 32)%N else c.

Definition lower (s : str) : str := List.map lower_char s.

(** [s.startswith(p)] *)
Fixpoint startswith (p s : str) : bool :=
  match p, s with
  | [], _ => true
  | x :: p', y :: s' => (N.eqb x y && startswith p' s')%bool
  | _ :: _, [] => false
  end.

(** [sub in s] *)
Fixpoint contains (sub s : str) : bool :=
  (startswith sub s ||
   match s with
   | [] => false
   | _ :: s' => contains sub s'
   end)%bool.

(** [a < b] on strings: lexicographic on code points. *)
Fixpoint ltb (a b : str) : bool :=
  match a, b with
  | _, [] => false
  | [], _ :: _ => true
  | x :: a', y :: b' =>
      if N.ltb x y then true else if N.eqb x y then ltb a' b' else false
  end.

(** [a <= b] on strings. *)
Definition leb (a b : str) : bool := negb (ltb b a).

End Py.

Abbreviation str := Py.str.

(* ------------------------------------------------------------------ *)
(** ** The [re] module: patterns and [re.match] *)

Module Re.

(** A member of a bracketed class: one character or a range. *)
Inductive citem : Type :=
| One (c : N)
| Range (lo hi : N).

Definition in_item (c : N) (it : citem) : bool :=
  match it with
  | One x => N.eqb c x
  | Range lo hi => Py.between lo hi c
  end.

(** The pattern syntax the script uses.  [Rep a lo hi] is the greedy
    repetition [a{lo,hi}] ([hi = None] for no upper bound); [Grp i a] is the
    capturing group numbered [i]; a non-capturing group is its body. *)
Inductive regex : Type :=
| Eps
| Chr (c : N)
| Cls (items : list citem)
| Space
| Dot
| WordB
| Seq (a b : regex)
| Rep (a : regex) (lo : nat) (hi : option nat)
| Grp (i : nat) (a : regex).

(** A position in the subject: the character before it, and what follows. *)
Record pos : Type := Pos { before : option N; rest : str }.

Definition groups := list (nat * str).

Fixpoint group (i : nat) (gs : groups) : option str :=
  match gs with
  | [] => None
  | (j, s) :: gs' => if Nat.eqb i j then Some s else group i gs'
  end.

Fixpoint set_group (i : nat) (s : str) (gs : groups) : groups :=
  match gs with
  | [] => [(i, s)]
  | (j, t) :: gs' =>
      if Nat.eqb i j then (i, s) :: gs' else (j, t) :: set_group i s gs'
  end.

(** What the rest of the pattern does from a position. *)
Definition cont := pos -> groups -> option groups.

(** One character satisfying [p]. *)
Definition eat (p : N -> bool) (k : cont) : cont :=
  fun q gs =>
    match rest q with
    | c :: t => if p c then k (Pos (Some c) t) gs else None
    | [] => None
    end.

(** Greedy repetition: at least [lo] and at most [n] rounds of [step], as
    many as lead to a match of what follows. *)
Fixpoint iterate (step : cont -> cont) (lo n : nat) (k : cont) : cont :=
  fun q gs =>
    match n with
    | O => match lo with O => k q gs | S _ => None end
    | S n' =>
        match lo with
        | S lo' => step (iterate step lo' n' k) q gs
        | O =>
            match step (iterate step 0 n' k) q gs with
            | Some r => Some r
            | None => k q gs
            end
        end
    end.

(** The text between two positions of one subject. *)
Definition consumed (q q' : pos) : str :=
  firstn (List.length (rest q) - List.length (rest q')) (rest q).

(** [n] rounds of [R], each starting where the one before ended. *)
Inductive rounds (R : pos -> groups -> pos -> groups -> Prop)
  : nat -> pos -> groups -> pos -> groups -> Prop :=
| rounds_O q gs : rounds R 0 q gs q gs
| rounds_S n q gs q1 gs1 q' gs' :
    R q gs q1 gs1 -> rounds R n q1 gs1 q' gs' -> rounds R (S n) q gs q' gs'.

(** One character satisfying [p] is taken, the groups stay. *)
Definition takes (p : N -> bool) (q : pos) (gs : groups) (q' : pos)
    (gs' : groups) : Prop :=
  exists c t, rest q = c :: t /\ p c = true /\ q' = Pos (Some c) t /\ gs' = gs.

(** The groups a pattern may set, and those every match of it sets. *)
Fixpoint bound_groups (r : regex) : list nat :=
  match r with
  | Seq a b => bound_groups a ++ bound_groups b
  | Rep a _ _ => bound_groups a
  | Grp i a => i :: bound_groups a
  | _ => []
  end.

Fixpoint sure_groups (r : regex) : list nat :=
  match r with
  | Seq a b => sure_groups a ++ sure_groups b
  | Rep a (S _) _ => sure_groups a
  | Grp i a => i :: sure_groups a
  | _ => []
  end.

(** Every match of the pattern takes at least one character. *)
Fixpoint consuming (r : regex) : bool :=
  match r with
  | Chr _ | Cls _ | Space | Dot => true
  | Eps | WordB => false
  | Seq a b => (consuming a || consuming b)%bool
  | Rep a (S _) _ => consuming a
  | Rep _ O _ => false
  | Grp _ a => consuming a
  end.

(** Every unbounded repetition in the pattern repeats such a pattern. *)
Fixpoint loops_consume (r : regex) : bool :=
  match r with
  | Seq a b => (loops_consume a && loops_consume b)%bool
  | Rep a _ None => (loops_consume a && consuming a)%bool
  | Rep a _ (Some _) => loops_consume a
  | Grp _ a => loops_consume a
  | _ => true
  end.

(** How far a match of [r] goes at least. *)
Definition drop (r : regex) : nat := if consuming r then 1 else 0.

(** [F] looks at what follows only [d] characters further or more. *)
Definition local (d : nat) (F : cont -> cont) : Prop :=
  forall k k' q gs,
    (forall q' gs', List.length (rest q') + d <= List.length (rest q) ->
                    k q' gs' = k' q' gs') ->
    F k q gs = F k' q gs.

(** The greatest character of a class. *)
Definition class_max (items : list citem) : N :=
  fold_right (fun it m => N.max (match it with One x => x | Range _ hi => hi end) m)
             0%N items.

Section Matcher.

(** [\w] beyond ASCII is read from the Unicode database ([str.isalnum]);
    the table is a parameter. *)
Variable unicode_alnum : N -> bool.

Definition isword (c : N) : bool :=
  if N.ltb c 128
  then (Py.between 48 57 c || Py.between 65 90 c || Py.between 97 122 c
        || N.eqb c 95)%bool
  else unicode_alnum c.

Definition word_before (q : pos) : bool :=
  match before q with Some c => isword c | None => false end.

Definition word_after (q : pos) : bool :=
  match rest q with c :: _ => isword c | [] => false end.

(** The search for a match of [r] followed by [k].  An unbounded repetition
    is given as many rounds as characters are left beyond its minimum, and
    [slack] more; a round of one of the script's patterns takes at least
    one character, so the rounds never run out, whatever [slack] is
    ([run_slack_irrelevant]). *)
Fixpoint run_slack (slack : nat) (r : regex) (k : cont) {struct r} : cont :=
  fun q gs =>
    match r with
    | Eps => k q gs
    | Chr c => eat (N.eqb c) k q gs
    | Cls items => eat (fun c => existsb (in_item c) items) k q gs
    | Space => eat Py.isspace k q gs
    | Dot => eat (fun c => negb (N.eqb c 10)) k q gs
    | WordB => if xorb (word_before q) (word_after q) then k q gs else None
    | Seq a b => run_slack slack a (run_slack slack b k) q gs
    | Rep a lo hi =>
        let n := match hi with
                 | Some h => h
                 | None => lo + List.length (rest q) + slack
                 end in
        iterate (run_slack slack a) lo n k q gs
    | Grp i a =>
        run_slack slack a
                  (fun q' gs' => k q' (set_group i (consumed q q') gs')) q gs
    end.

Definition run : regex -> cont -> cont := run_slack 0.

(** [re.match(r, s)]: the groups of the match at the start of [s], if any. *)
Definition re_match (r : regex) (s : str) : option groups :=
  run r (fun _ gs => Some gs) (Pos None s) [].

(** What it means that [r] matches from [q] to [q'], taking the groups
    from [gs] to [gs']: the relation [run] searches, without its order of
    search. *)
Fixpoint matches (r : regex) : pos -> groups -> pos -> groups -> Prop :=
  match r with
  | Eps => fun q gs q' gs' => q' = q /\ gs' = gs
  | Chr c => takes (N.eqb c)
  | Cls items => takes (fun c => existsb (in_item c) items)
  | Space => takes Py.isspace
  | Dot => takes (fun c => negb (N.eqb c 10))
  | WordB =>
      fun q gs q' gs' =>
        xorb (word_before q) (word_after q) = true /\ q' = q /\ gs' = gs
  | Seq a b =>
      fun q gs q' gs' =>
        exists q1 gs1, matches a q gs q1 gs1 /\ matches b q1 gs1 q' gs'
  | Rep a lo hi =>
      fun q gs q' gs' =>
        exists n, lo <= n /\ (forall h, hi = Some h -> n <= h)
                  /\ rounds (matches a) n q gs q' gs'
  | Grp i a =>
      fun q gs q' gs' =>
        exists gs1, matches a q gs q' gs1
                    /\ gs' = set_group i (consumed q q') gs1
  end.

End Matcher.

(** Building blocks for writing patterns down. *)
Fixpoint seq (rs : list regex) : regex :=
  match rs with
  | [] => Eps
  | [r] => r
  | r :: rs' => Seq r (seq rs')
  end.

Definition text (s : string) : regex := seq (List.map Chr (Py.lit s)).
Definition star (a : regex) : regex := Rep a 0 None.
Definition plus (a : regex) : regex := Rep a 1 None.
Definition opt (a : regex) : regex := Rep a 0 (Some 1).
Definition ch (s : string) : N :=
  match Py.lit s with c :: _ => c | [] => 0%N end.
Definition one (s : string) : citem := One (ch s).
Definition range (a b : string) : citem := Range (ch a) (ch b).

End Re.

(* ------------------------------------------------------------------ *)
(** ** Exceptions, dictionaries and dynamic values *)

Inductive exn : Type :=
| KeyError
| IndexError
| StopIteration
| TypeError
| AttributeError
| SystemExit
| InvalidSemanticVersion
| OSError.

Inductive result (A : Type) : Type :=
| Ok (a : A)
| Error (e : exn).

Arguments Ok {A} a.
Arguments Error {A} e.

Definition bind {A B : Type} (m : result A) (f : A -> result B) : result B :=
  match m with
  | Ok a => f a
  | Error e => Error e
  end.

Notation "x <- m ;; f" := (bind m (fun x => f))
  (at level 61, m at next level, right associativity).

(** A list comprehension whose element expression may raise. *)
Fixpoint mapM {A B : Type} (f : A -> result B) (l : list A) : result (list B) :=
  match l with
  | [] => Ok []
  | a :: l' => b <- f a ;; bs <- mapM f l' ;; Ok (b :: bs)
  end.

(** A [dict] with [str] keys, in insertion order. *)
Definition dict (V : Type) := list (str * V).

Section Dict.

Variable V : Type.

Definition keys (d : dict V) : list str := List.map fst d.

(** [d.get(k)] *)
Fixpoint dict_get (k : str) (d : dict V) : option V :=
  match d with
  | [] => None
  | (k', v) :: d' => if Py.eqb k k' then Some v else dict_get k d'
  end.

(** [k in d] *)
Definition dict_mem (k : str) (d : dict V) : bool :=
  match dict_get k d with Some _ => true | None => false end.

(** [d[k] = v]: a key already there keeps its place, a new one goes last. *)
Fixpoint dict_set (k : str) (v : V) (d : dict V) : dict V :=
  match d with
  | [] => [(k, v)]
  | (k', v') :: d' =>
      if Py.eqb k k' then (k, v) :: d' else (k', v') :: dict_set k v d'
  end.

End Dict.

Arguments keys {V} d.
Arguments dict_get {V} k d.
Arguments dict_mem {V} k d.
Arguments dict_set {V} k v d.

(** What the changelog dictionary holds: [None], text, numbers, lists of
    lines (all that keepachangelog puts in a list) and nested dictionaries. *)
#[warnings="-register-all"]
Inductive value : Type :=
| VNone
| VStr (s : str)
| VInt (z : N)
| VList (l : list str)
| VDict (d : list (str * value)).

(** [v[k]] *)
Definition getitem (v : value) (k : str) : result value :=
  match v with
  | VDict d => match dict_get k d with Some x => Ok x | None => Error KeyError end
  | _ => Error TypeError
  end.

(** [v.setdefault(k, default)]: the dictionary afterwards and the value. *)
Definition setdefault (v : value) (k : str) (default : value)
  : result (value * value) :=
  match v with
  | VDict d =>
      match dict_get k d with
      | Some x => Ok (v, x)
      | None => Ok (VDict (dict_set k default d), default)
      end
  | _ => Error AttributeError
  end.

(** [v[k] = x] *)
Definition setitem (v : value) (k : str) (x : value) : result value :=
  match v with
  | VDict d => Ok (VDict (dict_set k x d))
  | _ => Error TypeError
  end.

(** [for item in v]: a list gives its lines, a dictionary its keys, a string
    its characters. *)
Definition iter (v : value) : result (list str) :=
  match v with
  | VList l => Ok l
  | VDict d => Ok (keys d)
  | VStr s => Ok (List.map (fun c => [c]) s)
  | _ => Error TypeError
  end.

(** [v != 'unreleased'] *)
Definition value_is (s : str) (v : value) : bool :=
  match v with
  | VStr t => Py.eqb t s
  | _ => false
  end.

(* ------------------------------------------------------------------ *)
(** ** The script *)

Import Re.

(** [[0-9]] *)
Definition digit : regex := Cls [range "0" "9"].

(** [_version_regex = r'v?([0-9]+(?:\.[0-9]+){0,2})'], its group being the
    [g]-th of the pattern it is spliced into. *)
Definition _version_regex (g : nat) : regex :=
  seq [opt (Chr (ch "v"));
       Grp g (seq [plus digit; Rep (seq [Chr (ch "."); plus digit]) 0 (Some 2)])].

(** [_url_regex =
     r'[-a-zA-Z0-9@:%._\+~#=]{1,256}\.[a-zA-Z0-9()]{1,6}/\b([-a-zA-Z0-9()@:%_\+.~#?&\/=]* )']
    (in these comments a blank keeps a star apart from the parenthesis that
    follows it in the script). *)
Definition _url_regex (g : nat) : regex :=
  seq [Rep (Cls [one "-"; range "a" "z"; range "A" "Z"; range "0" "9"; one "@";
                 one ":"; one "%"; one "."; one "_"; one "+"; one "~"; one "#";
                 one "="]) 1 (Some 256);
       Chr (ch ".");
       Rep (Cls [range "a" "z"; range "A" "Z"; range "0" "9"; one "("; one ")"])
           1 (Some 6);
       Chr (ch "/");
       WordB;
       Grp g (star (Cls [one "-"; range "a" "z"; range "A" "Z"; range "0" "9";
                         one "("; one ")"; one "@"; one ":"; one "%"; one "_";
                         one "+"; one "."; one "~"; one "#"; one "?"; one "&";
                         one "/"; one "="]))].

(** [rf'(?:-\s+)Update `([a-zA-Z0-9_\-/]+)`(?: hook)? to {_version_regex}'] *)
Definition changelog_item_regex : regex :=
  seq [seq [Chr (ch "-"); plus Space];
       text "Update `";
       Grp 1 (plus (Cls [range "a" "z"; range "A" "Z"; range "0" "9"; one "_";
                         one "-"; one "/"]));
       Chr (ch "`");
       opt (text " hook");
       text " to ";
       _version_regex 2].

(** [r'-\s+\[(.* )\].*'] *)
Definition hook_line_regex : regex :=
  seq [Chr (ch "-"); plus Space; Chr (ch "["); Grp 1 (star Dot); Chr (ch "]");
       star Dot].

(** [rf'{_url_regex}\s*:\s*{_version_regex}\s+→\s+{_version_regex}'] *)
Definition hook_label_regex : regex :=
  seq [_url_regex 1; star Space; Chr (ch ":"); star Space; _version_regex 2;
       plus Space; Chr Py.arrow; plus Space; _version_regex 3].

(** The characters of a hook name in the changelog pattern
    ([[a-zA-Z0-9_\-/]]), and the digits. *)
Definition hook_name_char (c : N) : bool :=
  existsb (in_item c)
          [range "a" "z"; range "A" "Z"; range "0" "9"; one "_"; one "-";
           one "/"].

Definition digit_char (c : N) : bool := existsb (in_item c) [range "0" "9"].

(** What [_version_regex] captures: a run of digits, then at most two more,
    each after a dot. *)
Definition dotted_number (v : str) : Prop :=
  exists d ds,
    v = d ++ List.concat (List.map (cons (ch ".")) ds)
    /\ d <> [] /\ Forall (fun c => digit_char c = true) d
    /\ List.length ds <= 2
    /\ Forall (fun x => x <> [] /\ Forall (fun c => digit_char c = true) x) ds.

(** [m.group(i)] of a match.  Every group of the patterns above lies on the
    path each of their matches takes, so it is always set
    ([script_groups_set]). *)
Definition group_text (i : nat) (m : groups) : str :=
  match group i m with
  | Some s => s
  | None => []
  end.

Definition unreleased : str := Py.lit "unreleased".
Definition metadata : str := Py.lit "metadata".
Definition version : str := Py.lit "version".
Definition pr_body_marker_start : str := Py.lit "<!--pre-commit.ci start-->".
Definition pr_body_marker_end : str := Py.lit "<!--pre-commit.ci end-->".

(** [clean_version_str] on a string. *)
Definition clean_version_str (version : str) : str :=
  if (Py.startswith (Py.lit "v") version || Py.startswith (Py.lit "V") version)%bool
  then tl version
  else version.

(** The versions as [clean_version_str] meets them: it calls
    [version.startswith], which only a string has, so the first version that
    is not a string raises [AttributeError]; past the cleaning every version
    is a string. *)
Definition version_text (v : value) : result str :=
  match v with
  | VStr s => Ok s
  | _ => Error AttributeError
  end.

(** The f-string of the compare link. *)
Definition compare_url (version_name : str) : str :=
  Py.lit "https://github.com/Takishima/flake8-secure-coding-standard/compare/"
  ++ version_name ++ Py.lit "...HEAD".

(** The entry [get_changelog] makes up when the changelog has none. *)
Definition synthesized_entry (version_name : str) : value :=
  VDict [(metadata,
          VDict [(Py.lit "release_data", VNone);
                 (Py.lit "url", VStr (compare_url version_name));
                 (version, VStr unreleased)])].

(** [v['metadata']['version']] for the entries whose version is not
    ['unreleased'], in the order of the dictionary. *)
Fixpoint versions_of (changelog : dict value) : result (list value) :=
  match changelog with
  | [] => Ok []
  | (_, v) :: changelog' =>
      m <- getitem v metadata ;;
      x <- getitem m version ;;
      xs <- versions_of changelog' ;;
      Ok (if value_is unreleased x then xs else x :: xs)
  end.

(** No entry of [changelog] carries a version other than ['unreleased']. *)
Definition no_versioned_entry (changelog : dict value) : Prop :=
  Forall (fun kv => exists m, getitem (snd kv) metadata = Ok m
                              /\ getitem m version = Ok (VStr unreleased))
         changelog.

(** [next(version for version in versions if last_version in version)] *)
Fixpoint next_containing (last_version : str) (versions : list str)
  : result str :=
  match versions with
  | [] => Error StopIteration
  | version :: versions' =>
      if Py.contains last_version version then Ok version
      else next_containing last_version versions'
  end.

(** What a line of the changelog section records, if the pattern of
    [parse_changelog] matches it. *)
Definition changelog_hook (unicode_alnum : N -> bool) (item : str)
  : option (str * str) :=
  match re_match unicode_alnum changelog_item_regex item with
  | Some hook_match =>
      Some (group_text 1 hook_match, group_text 2 hook_match)
  | None => None
  end.

(** The loop body of [parse_changelog]. *)
Definition parse_item (unicode_alnum : N -> bool)
    (acc : list str * dict str) (item : str) : list str * dict str :=
  let (new_content, hook_data) := acc in
  match changelog_hook unicode_alnum item with
  | Some (hook, version) => (new_content, dict_set hook version hook_data)
  | None =>
      match item with
      | _ :: _ => (new_content ++ [item], hook_data)
      | [] => (new_content, hook_data)
      end
  end.

(** What a line of the marked region of the pull request body records. *)
Definition parse_line (unicode_alnum : N -> bool) (line : str)
  : option (str * str) :=
  match re_match unicode_alnum hook_line_regex (Py.strip line) with
  | Some hook_line =>
      match re_match unicode_alnum hook_label_regex (group_text 1 hook_line) with
      | Some hook_match =>
          Some (group_text 1 hook_match, group_text 3 hook_match)
      | None => None
      end
  | None => None
  end.

(** The loop of [parse_pull_request_body]: [skip] is the flag of the
    script, and reaching the end marker leaves the loop. *)
Fixpoint scan_lines (unicode_alnum : N -> bool) (lines : list str)
    (skip : bool) (new_hook_data : dict str) : dict str :=
  match lines with
  | [] => new_hook_data
  | line :: lines' =>
      if Py.eqb (Py.strip line) pr_body_marker_start
      then scan_lines unicode_alnum lines' false new_hook_data
      else if skip then scan_lines unicode_alnum lines' skip new_hook_data
      else if Py.eqb (Py.strip line) pr_body_marker_end then new_hook_data
      else
        match parse_line unicode_alnum line with
        | Some (hook, new_version) =>
            scan_lines unicode_alnum lines' skip
                       (dict_set hook new_version new_hook_data)
        | None => scan_lines unicode_alnum lines' skip new_hook_data
        end
  end.

(** [region] is the marked region of [lines]: what stands between the first
    start marker line and the first end marker line after it (or the end of
    the text, when no end marker follows). *)
Definition region_of (lines region : list str) : Prop :=
  exists pre s tail,
    lines = pre ++ s :: region ++ tail
    /\ (forall l, In l pre -> Py.strip l <> pr_body_marker_start)
    /\ Py.strip s = pr_body_marker_start
    /\ (forall l, In l region -> Py.strip l <> pr_body_marker_end)
    /\ (tail = [] \/ exists e post,
           tail = e :: post /\ Py.strip e = pr_body_marker_end).

(** [any(hook.lower() in new_hook.lower() for new_hook in new_hook_data)] *)
Definition any_match (hook : str) (new_hook_data : dict str) : bool :=
  existsb (fun new_hook => Py.contains (Py.lower hook) (Py.lower new_hook))
          (keys new_hook_data).

(** The loop over [hook_data.items()]: it adds to the dictionary it tests. *)
Fixpoint carry_forward (items : list (str * str)) (new_hook_data : dict str)
  : dict str :=
  match items with
  | [] => new_hook_data
  | (hook, version) :: items' =>
      if any_match hook new_hook_data
      then carry_forward items' new_hook_data
      else carry_forward items' (dict_set hook version new_hook_data)
  end.

(** [sorted(names, key=str.lower)]: a stable sort, written as the insertion
    that keeps a name behind the names whose key is not greater. *)
Fixpoint insert_by_lower (x : str) (l : list str) : list str :=
  match l with
  | [] => [x]
  | y :: l' =>
      if Py.ltb (Py.lower x) (Py.lower y) then x :: l
      else y :: insert_by_lower x l'
  end.

Definition sorted_by_lower (names : list str) : list str :=
  fold_left (fun acc x => insert_by_lower x acc) names [].

(** [a] comes no later than [b] under the sort key. *)
Definition key_le (a b : str) : Prop :=
  Py.leb (Py.lower a) (Py.lower b) = true.

(** [a] comes strictly before [b] under the sort key. *)
Definition key_lt (a b : str) : Prop :=
  Py.ltb (Py.lower a) (Py.lower b) = true.

(** [f'-   Update `{hook_name}` hook to v{new_hook_data[hook_name]}'] *)
Definition update_line (new_hook_data : dict str) (hook_name : str) : str :=
  Py.lit "-   Update `" ++ hook_name ++ Py.lit "` hook to v"
  ++ match dict_get hook_name new_hook_data with Some v => v | None => [] end.

(** The lines the second loop of [udpate_changelog_from_pr_body] appends. *)
Definition generated_lines (new_hook_data : dict str) : list str :=
  List.map (update_line new_hook_data) (sorted_by_lower (keys new_hook_data)).

(** [l[-1]] *)
Definition last_item {A : Type} (l : list A) : result A :=
  match rev l with
  | x :: _ => Ok x
  | [] => Error IndexError
  end.

(** What [argparse] hands to [main]. *)
Record namespace : Type := Namespace {
  args_path : str;
  args_pr_body : str;
  args_target_section : str
}.

(** [parser.parse_args()] over the three options, each given or left out:
    [--pr-body] is required, the others have defaults. *)
Definition parse_args (file pr_body target_section : option str)
  : result namespace :=
  match pr_body with
  | None => Error SystemExit
  | Some body =>
      Ok (Namespace
            (match file with Some f => f | None => Py.lit "CHANGELOG.md" end)
            body
            (match target_section with
             | Some s => s
             | None => Py.lit "repository"
             end))
  end.

(* ------------------------------------------------------------------ *)
(** ** The library calls, modelled for concrete runs *)

Module Semver.

(** Modelled from the spec: the semantic version keepachangelog reads off a
    version key (the library is not part of the repository): three numbers,
    then an optional pre-release after a hyphen and optional build metadata
    after a plus sign. *)
Record t : Type := Make {
  major : N;
  minor : N;
  patch : N;
  prerelease : option str;
  buildmetadata : option str
}.

Definition isdigit (c : N) : bool := Py.between 48 57 c.

Definition isident (c : N) : bool :=
  (isdigit c || Py.between 65 90 c || Py.between 97 122 c || N.eqb c 45
   || N.eqb c 46)%bool.

(** The longest prefix of characters satisfying [p], and the rest. *)
Fixpoint span (p : N -> bool) (s : str) : str * str :=
  match s with
  | c :: s' =>
      if p c then let (a, b) := span p s' in (c :: a, b) else ([], s)
  | [] => ([], [])
  end.

(** A number without a leading zero. *)
Definition number (digits : str) : option N :=
  match digits with
  | [] => None
  | c :: rest =>
      if (N.eqb c 48 && negb (Py.eqb rest []))%bool then None
      else Some (fold_left (fun n d => (10 * n + (d - 48))%N) digits 0%N)
  end.

Definition tail_part (s : str) : option (option str * option str) :=
  match s with
  | [] => Some (None, None)
  | c :: s' =>
      if N.eqb c 45 then
        let (pre, rest) := span (fun x => negb (N.eqb x 43)) s' in
        if (negb (Py.eqb pre []) && forallb isident pre)%bool then
          match rest with
          | [] => Some (Some pre, None)
          | _ :: build =>
              if (negb (Py.eqb build []) && forallb isident build)%bool
              then Some (Some pre, Some build) else None
          end
        else None
      else if N.eqb c 43 then
        if (negb (Py.eqb s' []) && forallb isident s')%bool
        then Some (None, Some s') else None
      else None
  end.

(** Modelled from the spec: [keepachangelog.to_semantic], which raises on a
    key that is not a semantic version. *)
Definition to_semantic (s : str) : result t :=
  let (a, r1) := span isdigit s in
  match r1 with
  | dot1 :: r2 =>
      let (b, r3) := span isdigit r2 in
      match r3 with
      | dot2 :: r4 =>
          let (c, r5) := span isdigit r4 in
          match number a, number b, number c, tail_part r5 with
          | Some x, Some y, Some z, Some (pre, build) =>
              if (N.eqb dot1 46 && N.eqb dot2 46)%bool
              then Ok (Make x y z pre build)
              else Error InvalidSemanticVersion
          | _, _, _, _ => Error InvalidSemanticVersion
          end
      | [] => Error InvalidSemanticVersion
      end
  | [] => Error InvalidSemanticVersion
  end.

(** Modelled from the spec: semantic-version order.  Numbers decide first; a
    pre-release comes before its release, and two pre-releases of one
    release compare as text. *)
Definition ltb (a b : t) : bool :=
  if N.ltb (major a) (major b) then true
  else if N.ltb (major b) (major a) then false
  else if N.ltb (minor a) (minor b) then true
  else if N.ltb (minor b) (minor a) then false
  else if N.ltb (patch a) (patch b) then true
  else if N.ltb (patch b) (patch a) then false
  else
    match prerelease a, prerelease b with
    | Some _, None => true
    | Some x, Some y => Py.ltb x y
    | None, _ => false
    end.

Fixpoint insert (x : str * t) (l : list (str * t)) : list (str * t) :=
  match l with
  | [] => [x]
  | y :: l' => if ltb (snd x) (snd y) then x :: l else y :: insert x l'
  end.

Definition as_value (v : t) : value :=
  let text o := match o with Some s => VStr s | None => VNone end in
  VDict [(Py.lit "major", VInt (major v)); (Py.lit "minor", VInt (minor v));
         (Py.lit "patch", VInt (patch v));
         (Py.lit "prerelease", text (prerelease v));
         (Py.lit "buildmetadata", text (buildmetadata v))].

(** Modelled from the spec: [keepachangelog.to_sorted_semantic], the
    versions in semantic-version order, lowest first, each with its parsed
    form. *)
Definition to_sorted_semantic (versions : list str)
  : result (list (str * value)) :=
  parsed <- mapM (fun v => x <- to_semantic v ;; Ok (v, x)) versions ;;
  Ok (List.map (fun p => (fst p, as_value (snd p)))
               (fold_left (fun acc x => insert x acc) parsed [])).

End Semver.

(** A Unicode table for runs in which [\b] meets ASCII characters only,
    where it is never consulted. *)
Definition no_table (_ : N) : bool := false.

(** [to_dict] in a file system whose every path holds the changelog that
    reads as [changelog]. *)
Definition reads_as (changelog : dict value) (_ : str) (_ : bool)
  : result (dict value) := Ok changelog.


(* ------------------------------------------------------------------ *)
(** ** Sample texts *)

Module Sample.

Definition repository : str := Py.lit "repository".

(** The changelog line of the end-to-end example. *)
Definition black_item : str := Py.lit "- Update `black` hook to v22.1.0".

(** The pull request line of the end-to-end example, as the spec has it: a
    check box, then the label. *)
Definition boxed_line : str :=
  Py.lit "- [ ] [psf/black.github.io/path: v22.1.0 " ++ [Py.arrow]
  ++ Py.lit " v23.0.0]".

(** The same update the way pre-commit.ci writes it: the label comes first. *)
Definition label_line : str :=
  Py.lit "- [github.com/psf/black: v22.1.0 " ++ [Py.arrow]
  ++ Py.lit " v23.0.0]".

Definition black_line : str := Py.lit "-   Update `black` hook to v22.1.0".
Definition psf_black_line : str :=
  Py.lit "-   Update `psf/black` hook to v23.0.0".

(** A second line for the same hook, in the changelog and in the body. *)
Definition black_item_later : str := Py.lit "- Update `black` hook to v22.3.0".
Definition note_item : str := Py.lit "- Drop support for Python 3.7".
Definition label_line_later : str :=
  Py.lit "- [github.com/psf/black: v23.0.0 " ++ [Py.arrow]
  ++ Py.lit " v23.1.0]".
Definition updates_line : str := Py.lit "updates:".

(** A well-formed update line for another hook. *)
Definition foreign_line : str :=
  Py.lit "- [github.com/PyCQA/flake8: 5.0.4 " ++ [Py.arrow]
  ++ Py.lit " 6.0.0]".

(** Two update lines whose names differ in case only. *)
Definition upper_line : str :=
  Py.lit "- [github.com/PyCQA/flake8: 5.0.4 " ++ [Py.arrow]
  ++ Py.lit " 6.0.0]".
Definition lower_line : str :=
  Py.lit "- [github.com/pycqa/flake8: 5.0.4 " ++ [Py.arrow]
  ++ Py.lit " 6.1.0]".

Definition path : str := Py.lit "CHANGELOG.md".

(** A text with the given lines, each ended by a line feed. *)
Definition text (lines : list str) : str :=
  List.concat (List.map (fun l => l ++ [10%N]) lines).

(** The entry of a released version [v]. *)
Definition release (v : string) : str * value :=
  (Py.lit v,
   VDict [(metadata,
           VDict [(version, VStr (Py.lit v));
                  (Py.lit "release_date", VStr (Py.lit "2023-01-31"))])]).

(** An unreleased entry with the given sections. *)
Definition unreleased_with (sections : dict value) : str * value :=
  (unreleased,
   VDict ((metadata,
           VDict [(version, VStr unreleased); (Py.lit "release_date", VNone)])
          :: sections)).

Definition black_changelog : dict value :=
  [unreleased_with [(repository, VList [black_item])]; release "1.0.0"].

Definition twice_changelog : dict value :=
  [unreleased_with
     [(repository, VList [black_item; note_item; black_item_later])];
   release "1.0.0"].

(** The unreleased entry records the hook under [added]. *)
Definition added_changelog : dict value :=
  [unreleased_with [(Py.lit "added", VList [black_item])]; release "1.0.0"].

(** No unreleased entry; the release candidate is listed before its
    release. *)
Definition candidate_first : dict value :=
  [release "1.0.0-rc1"; release "1.0.0"].

Definition one_release : dict value := [release "1.0.0"].

Definition boxed_body : str :=
  text [pr_body_marker_start; boxed_line; pr_body_marker_end].

Definition label_body : str :=
  text [pr_body_marker_start; label_line; pr_body_marker_end].

(** Update lines before the start marker and after the end marker. *)
Definition noisy_body : str :=
  text [foreign_line; pr_body_marker_start; updates_line; label_line;
        pr_body_marker_end; foreign_line].

Definition plain_body : str :=
  text [pr_body_marker_start; updates_line; label_line; pr_body_marker_end].

Definition twice_body : str :=
  text [pr_body_marker_start; label_line; label_line_later;
        pr_body_marker_end].

Definition case_body : str :=
  text [pr_body_marker_start; upper_line; lower_line; pr_body_marker_end].

(** The second end-to-end example: [foo-tool] is recorded, [bar-tool] is
    updated. *)
Definition foo_changelog : dict value :=
  [unreleased_with
     [(repository, VList [Py.lit "- Update `foo-tool` hook to v1.2"])];
   release "1.0.0"].

Definition bar_body : str :=
  text [pr_body_marker_start;
        Py.lit "- [example.com/bar-tool: 2.0 " ++ [Py.arrow] ++ Py.lit " 2.1]";
        pr_body_marker_end].

(** Records of hook versions. *)
Definition prior : dict str :=
  [(Py.lit "black", Py.lit "22.1.0"); (Py.lit "fab", Py.lit "1.0");
   (Py.lit "ab", Py.lit "2.0"); (Py.lit "flake8", Py.lit "6.0.0")].

Definition qualified : dict str := [(Py.lit "psf/black", Py.lit "23.0.0")].

Definition same_name : dict str := [(Py.lit "black", Py.lit "23.0.0")].

Definition case_variants : dict str :=
  [(Py.lit "PyCQA/flake8", Py.lit "6.0.0");
   (Py.lit "pycqa/flake8", Py.lit "6.1.0")].

Definition three_hooks : dict str :=
  [(Py.lit "psf/black", Py.lit "23.0.0");
   (Py.lit "PyCQA/flake8", Py.lit "6.0.0");
   (Py.lit "asottile/pyupgrade", Py.lit "3.3.1")].

(** Update lines and no marker. *)
Definition unmarked_body : str := text [label_line; foreign_line].

(** A repository address that ends in [.git]: the name the pull request
    gives has a dot. *)
Definition yamllint : str := Py.lit "adrienverge/yamllint.git".
Definition yamllint_line : str :=
  Py.lit "- [github.com/adrienverge/yamllint.git: v1.26.0 " ++ [Py.arrow]
  ++ Py.lit " v1.26.3]".
Definition yamllint_record : dict str := [(yamllint, Py.lit "1.26.3")].

(** A changelog whose section is what an update generated. *)
Definition generated_changelog : dict value :=
  [unreleased_with [(repository, VList (generated_lines three_hooks))];
   release "1.0.0"].

(** What the loader makes of [one_release]. *)
Definition one_release_loaded : dict value :=
  (unreleased, synthesized_entry (Py.lit "1.0.0")) :: one_release.

(** The section [name] of the unreleased entry a run has written. *)
Definition written_section (r : result (str * dict value)) (name : str)
  : option value :=
  match r with
  | Ok (_, changelog) =>
      match dict_get unreleased changelog with
      | Some (VDict entry) => dict_get name entry
      | _ => None
      end
  | Error _ => None
  end.

End Sample.

Section Script.

(** The Unicode table behind [\b] (see [Re.isword]). *)
Variable unicode_alnum : N -> bool.

(** [keepachangelog.to_dict(str(path), show_unreleased=...)]: the file
    system and the library's reader. *)
Variable to_dict : str -> bool -> result (dict value).

(** [keepachangelog.to_sorted_semantic]: the versions paired with their
    parsed form, lowest first. *)
Variable to_sorted_semantic : list str -> result (list (str * value)).

Definition get_changelog (changelog_path : str) (show_unreleased : bool)
  : result (dict value) :=
  changelog <- to_dict changelog_path show_unreleased ;;
  if dict_mem unreleased changelog then Ok changelog
  else
    values <- versions_of changelog ;;
    versions <- mapM version_text values ;;
    sorted <- to_sorted_semantic (List.map clean_version_str versions) ;;
    last <- last_item sorted ;;
    version_name <- next_containing (fst last) versions ;;
    Ok ((unreleased, synthesized_entry version_name) :: changelog).

(** [parse_changelog] returns the dictionary too: [setdefault] may have put
    an empty section into its unreleased entry. *)
Definition parse_changelog (changelog_dict : dict value) (target_section : str)
  : result (dict value * (list str * dict str)) :=
  entry <- getitem (VDict changelog_dict) unreleased ;;
  r <- setdefault entry target_section (VList []) ;;
  items <- iter (snd r) ;;
  Ok (dict_set unreleased (fst r) changelog_dict,
      fold_left (parse_item unicode_alnum) items ([], [])).

Definition parse_pull_request_body (pr_body : str) : dict str :=
  scan_lines unicode_alnum (Py.splitlines pr_body) true [].

(** The function ends by writing [mdformat.text(keepachangelog.from_dict(
    changelog))] to [changelog_path]; both are library calls, and the model
    returns the path with the dictionary handed to them. *)
Definition udpate_changelog_from_pr_body
    (changelog_path pr_body target_section : str)
  : result (str * dict value) :=
  changelog <- get_changelog changelog_path true ;;
  parsed <- parse_changelog changelog target_section ;;
  let changelog := fst parsed in
  let new_content := fst (snd parsed) in
  let hook_data := snd (snd parsed) in
  let new_hook_data := parse_pull_request_body pr_body in
  let new_hook_data := carry_forward hook_data new_hook_data in
  let new_content := new_content ++ generated_lines new_hook_data in
  entry <- getitem (VDict changelog) unreleased ;;
  entry <- setitem entry target_section (VList new_content) ;;
  Ok (changelog_path, dict_set unreleased entry changelog).

Definition main (file pr_body target_section : option str)
  : result (str * dict value) :=
  args <- parse_args file pr_body target_section ;;
  udpate_changelog_from_pr_body (args_path args) (args_pr_body args)
                                (Py.lit "repository").

End Script.

(** Proves that the lines of a concrete text have a given marked region. *)
Ltac region_by pre s tail :=
  exists pre, s, tail;
  split; [|split; [|split; [|split]]];
  [ vm_compute; reflexivity
  | intros l Hl; simpl in Hl;
    repeat (destruct Hl as [<-|Hl]; [vm_compute; discriminate|]);
    contradiction
  | vm_compute; reflexivity
  | intros l Hl; simpl in Hl;
    repeat (destruct Hl as [<-|Hl]; [vm_compute; discriminate|]);
    contradiction
  | first [ left; reflexivity
          | right; eexists; eexists; split;
            [reflexivity | vm_compute; reflexivity] ] ].

(* ------------------------------------------------------------------ *)
(** ** Strings and dictionaries: basic facts *)

Lemma eqb_spec (a b : str) : reflect (a = b) (Py.eqb a b).
Proof.
  revert b; induction a as [|x a IH]; intros [|y b]; simpl;
    try (constructor; congruence).
  destruct (N.eqb_spec x y) as [->|Hxy]; simpl.
  - destruct (IH b) as [->|Hab]; constructor; congruence.
  - constructor; congruence.
Qed.

Lemma eqb_refl (a : str) : Py.eqb a a = true.
Proof. destruct (eqb_spec a a); congruence. Qed.

Lemma eqb_true (a b : str) : Py.eqb a b = true -> a = b.
Proof. destruct (eqb_spec a b); congruence. Qed.

Lemma eqb_false (a b : str) : a <> b -> Py.eqb a b = false.
Proof. destruct (eqb_spec a b); congruence. Qed.

Lemma startswith_refl (s : str) : Py.startswith s s = true.
Proof. induction s; simpl; [|rewrite N.eqb_refl]; auto. Qed.

Lemma contains_refl (s : str) : Py.contains s s = true.
Proof. destruct s; simpl; [|rewrite N.eqb_refl, startswith_refl]; auto. Qed.

Section DictFacts.

Variable V : Type.
Implicit Types (d : dict V) (k : str) (v : V).

Lemma dict_get_set_same k v d : dict_get k (dict_set k v d) = Some v.
Proof.
  induction d as [|[k' v'] d IH]; simpl.
  - now rewrite eqb_refl.
  - destruct (Py.eqb k k') eqn:E; simpl; [now rewrite eqb_refl | now rewrite E].
Qed.

Lemma dict_get_set_other k k' v d :
  k <> k' -> dict_get k (dict_set k' v d) = dict_get k d.
Proof.
  intros Hne; induction d as [|[k0 v0] d IH]; simpl.
  - now rewrite (eqb_false _ _ Hne).
  - destruct (Py.eqb k' k0) eqn:E; simpl.
    + apply eqb_true in E; subst k0. now rewrite (eqb_false _ _ Hne).
    + now rewrite IH.
Qed.

Lemma dict_get_in k d : dict_get k d <> None <-> In k (keys d).
Proof.
  induction d as [|[k' v'] d IH]; simpl; [tauto|].
  destruct (eqb_spec k k') as [->|Hne].
  - split; [auto | discriminate].
  - rewrite IH. split; [auto | intros [Heq|H]; [congruence | exact H]].
Qed.

Lemma dict_get_none k d : dict_get k d = None <-> ~ In k (keys d).
Proof.
  rewrite <- dict_get_in. destruct (dict_get k d); split; intros H;
    try congruence; try discriminate.
  exfalso; apply H; discriminate.
Qed.

(** Assignment keeps the keys in place and adds a new one at the end. *)
Lemma keys_dict_set k v d :
  keys (dict_set k v d) = if dict_mem k d then keys d else keys d ++ [k].
Proof.
  unfold dict_mem. induction d as [|[k' v'] d IH]; simpl; [reflexivity|].
  destruct (eqb_spec k k') as [->|Hne]; simpl; [reflexivity|].
  rewrite IH. now destruct (dict_get k d).
Qed.

Lemma in_keys_dict_set k k' v d :
  In k (keys (dict_set k' v d)) <-> k = k' \/ In k (keys d).
Proof.
  rewrite keys_dict_set. unfold dict_mem.
  destruct (dict_get k' d) eqn:E.
  - assert (In k' (keys d)) by (apply dict_get_in; congruence).
    split; [auto | intros [->|H']; auto].
  - rewrite in_app_iff; simpl. split; [intros [H|[H|[]]] | intros [H|H]]; auto.
Qed.

Lemma NoDup_keys_dict_set k v d :
  NoDup (keys d) -> NoDup (keys (dict_set k v d)).
Proof.
  intros Hd. rewrite keys_dict_set. unfold dict_mem.
  destruct (dict_get k d) eqn:E; [exact Hd|].
  apply dict_get_none in E.
  apply NoDup_app; [exact Hd | repeat constructor; simpl; tauto |].
  intros x Hx [<-|[]]. contradiction.
Qed.

End DictFacts.

Arguments dict_get_set_same {V} k v d.
Arguments dict_get_set_other {V} k k' v d _.
Arguments dict_get_in {V} k d.
Arguments dict_get_none {V} k d.
Arguments keys_dict_set {V} k v d.
Arguments in_keys_dict_set {V} k k' v d.
Arguments NoDup_keys_dict_set {V} k v d _.

(* ------------------------------------------------------------------ *)
(** ** The matcher: what a match found by [run] is *)

Section MatcherFacts.

Variable unicode_alnum : N -> bool.

Lemma eat_sound p k q gs res :
  eat p k q gs = Some res ->
  exists q' gs', takes p q gs q' gs' /\ k q' gs' = Some res.
Proof.
  unfold eat, takes. destruct (rest q) as [|c t] eqn:E; [discriminate|].
  destruct (p c) eqn:Hp; [|discriminate]. intros H.
  exists (Pos (Some c) t), gs. split; [|exact H]. now exists c, t.
Qed.

Lemma iterate_sound (step : cont -> cont)
    (R : pos -> groups -> pos -> groups -> Prop) :
  (forall k q gs res,
      step k q gs = Some res ->
      exists q' gs', R q gs q' gs' /\ k q' gs' = Some res) ->
  forall n lo k q gs res,
    iterate step lo n k q gs = Some res ->
    exists m q' gs',
      lo <= m /\ m <= n /\ rounds R m q gs q' gs' /\ k q' gs' = Some res.
Proof.
  intros Hstep. induction n as [|n IH]; intros lo k q gs res; simpl.
  - destruct lo; [|discriminate]. intros H.
    exists 0, q, gs. repeat split; [lia | lia | constructor | exact H].
  - destruct lo as [|lo].
    + destruct (step (iterate step 0 n k) q gs) as [r|] eqn:E.
      * intros [= ->].
        apply Hstep in E as (q1 & gs1 & HR & E).
        apply IH in E as (m & q' & gs' & _ & Hm & Hr & Hk).
        exists (S m), q', gs'.
        repeat split; [lia | lia | econstructor; eassumption | exact Hk].
      * intros H. exists 0, q, gs.
        repeat split; [lia | lia | constructor | exact H].
    + intros E.
      apply Hstep in E as (q1 & gs1 & HR & E).
      apply IH in E as (m & q' & gs' & Hlo & Hm & Hr & Hk).
      exists (S m), q', gs'.
      repeat split; [lia | lia | econstructor; eassumption | exact Hk].
Qed.

(** Whatever the search finds is a match, and the rest of the pattern went
    on from where it ends. *)
Lemma run_slack_sound e r :
  forall k q gs res,
    run_slack unicode_alnum e r k q gs = Some res ->
    exists q' gs', matches unicode_alnum r q gs q' gs' /\ k q' gs' = Some res.
Proof.
  induction r as [|c|items| | | |a IHa b IHb|a IHa lo hi|i a IHa];
    intros k q gs res; simpl.
  - intros H. now exists q, gs.
  - apply eat_sound.
  - apply eat_sound.
  - apply eat_sound.
  - apply eat_sound.
  - destruct (xorb (word_before unicode_alnum q) (word_after unicode_alnum q))
      eqn:E; [|discriminate].
    intros H. now exists q, gs.
  - intros H. apply IHa in H as (q1 & gs1 & Ha & H).
    apply IHb in H as (q' & gs' & Hb & H).
    exists q', gs'. split; [|exact H]. now exists q1, gs1.
  - intros H.
    apply (iterate_sound _ _ IHa) in H as (m & q' & gs' & Hlo & Hm & Hr & Hk).
    exists q', gs'. split; [|exact Hk].
    exists m. repeat split; [exact Hlo | | exact Hr].
    intros h ->. exact Hm.
  - intros H. apply IHa in H as (q' & gs1 & Ha & H).
    exists q', (set_group i (consumed q q') gs1). split; [|exact H].
    now exists gs1.
Qed.

Lemma run_sound r k q gs res :
  run unicode_alnum r k q gs = Some res ->
  exists q' gs', matches unicode_alnum r q gs q' gs' /\ k q' gs' = Some res.
Proof. apply run_slack_sound. Qed.

Lemma re_match_sound r s m :
  re_match unicode_alnum r s = Some m ->
  exists q', matches unicode_alnum r (Pos None s) [] q' m.
Proof.
  unfold re_match. intros H.
  apply run_sound in H as (q' & gs' & Hm & [= ->]). now exists q'.
Qed.

Lemma group_set_group_same i s gs : group i (set_group i s gs) = Some s.
Proof.
  induction gs as [|[j t] gs IH]; simpl.
  - now rewrite Nat.eqb_refl.
  - destruct (Nat.eqb i j) eqn:E; simpl; [now rewrite Nat.eqb_refl|].
    now rewrite E.
Qed.

Lemma group_set_group_other i j s gs :
  i <> j -> group i (set_group j s gs) = group i gs.
Proof.
  intros Hne. induction gs as [|[j' t] gs IH]; simpl.
  - destruct (Nat.eqb_spec i j); [contradiction | reflexivity].
  - destruct (Nat.eqb_spec j j') as [->|Hj]; simpl.
    + destruct (Nat.eqb_spec i j'); [contradiction | reflexivity].
    + now rewrite IH.
Qed.

(** A match leaves the groups its pattern does not name. *)
Lemma matches_frame i r :
  ~ In i (bound_groups r) ->
  forall q gs q' gs',
    matches unicode_alnum r q gs q' gs' -> group i gs' = group i gs.
Proof.
  induction r as [|c|items| | | |a IHa b IHb|a IHa lo hi|j a IHa];
    simpl; intros Hi q gs q' gs'.
  - now intros [_ ->].
  - now intros (c' & t & _ & _ & _ & ->).
  - now intros (c' & t & _ & _ & _ & ->).
  - now intros (c' & t & _ & _ & _ & ->).
  - now intros (c' & t & _ & _ & _ & ->).
  - now intros (_ & _ & ->).
  - intros (q1 & gs1 & Ha & Hb).
    rewrite (IHb (fun H => Hi (in_or_app _ _ _ (or_intror H))) _ _ _ _ Hb).
    exact (IHa (fun H => Hi (in_or_app _ _ _ (or_introl H))) _ _ _ _ Ha).
  - intros (n & _ & _ & Hr).
    induction Hr as [|n q gs q1 gs1 q' gs' Ha _ IH]; [reflexivity|].
    rewrite IH. exact (IHa Hi _ _ _ _ Ha).
  - intros (gs1 & Ha & ->).
    rewrite group_set_group_other by (intros ->; apply Hi; now left).
    apply (IHa (fun H => Hi (or_intror H)) _ _ _ _ Ha).
Qed.

(** A match never unsets a group, and sets those on its path. *)
Lemma matches_groups i r :
  forall q gs q' gs',
    matches unicode_alnum r q gs q' gs' ->
    (group i gs <> None \/ In i (sure_groups r)) -> group i gs' <> None.
Proof.
  induction r as [|c|items| | | |a IHa b IHb|a IHa lo hi|j a IHa];
    simpl; intros q gs q' gs'.
  - intros [_ ->] [H|[]]; exact H.
  - intros (c' & t & _ & _ & _ & ->) [H|[]]; exact H.
  - intros (c' & t & _ & _ & _ & ->) [H|[]]; exact H.
  - intros (c' & t & _ & _ & _ & ->) [H|[]]; exact H.
  - intros (c' & t & _ & _ & _ & ->) [H|[]]; exact H.
  - intros (_ & _ & ->) [H|[]]; exact H.
  - intros (q1 & gs1 & Ha & Hb) [H|H].
    + apply (IHb _ _ _ _ Hb). left. apply (IHa _ _ _ _ Ha). now left.
    + apply in_app_or in H as [H|H].
      * apply (IHb _ _ _ _ Hb). left. apply (IHa _ _ _ _ Ha). now right.
      * apply (IHb _ _ _ _ Hb). now right.
  - intros (n & Hlo & _ & Hr) H.
    assert (keep : forall n q gs q' gs',
               rounds (matches unicode_alnum a) n q gs q' gs' ->
               group i gs <> None -> group i gs' <> None).
    { clear - IHa. induction 1 as [|n q gs q1 gs1 q' gs' Ha _ IH]; [auto|].
      intros Hg. apply IH. apply (IHa _ _ _ _ Ha). now left. }
    destruct H as [H|H]; [exact (keep _ _ _ _ _ Hr H)|].
    destruct lo as [|lo]; [destruct H|].
    destruct Hr as [|n q gs q1 gs1 q' gs' Ha Hr]; [lia|].
    apply (keep _ _ _ _ _ Hr). apply (IHa _ _ _ _ Ha). now right.
  - intros (gs1 & Ha & ->) H.
    destruct (Nat.eq_dec i j) as [->|Hne].
    + rewrite group_set_group_same. discriminate.
    + rewrite group_set_group_other by exact Hne.
      apply (IHa _ _ _ _ Ha). destruct H as [H|[H|H]]; [now left | | now right].
      congruence.
Qed.

(** A match takes a prefix of what is left. *)
Lemma matches_rest r :
  forall q gs q' gs',
    matches unicode_alnum r q gs q' gs' -> exists s, rest q = s ++ rest q'.
Proof.
  assert (T : forall p q gs q' gs',
             takes p q gs q' gs' -> exists s, rest q = s ++ rest q').
  { intros p q gs q' gs' (c & t & E & _ & -> & _). now exists [c]. }
  induction r as [|c|items| | | |a IHa b IHb|a IHa lo hi|j a IHa];
    simpl; intros q gs q' gs'; try apply T.
  - intros [-> _]. now exists [].
  - intros (_ & -> & _). now exists [].
  - intros (q1 & gs1 & Ha & Hb).
    apply IHa in Ha as (s1 & E1). apply IHb in Hb as (s2 & E2).
    exists (s1 ++ s2). now rewrite E1, E2, app_assoc.
  - intros (n & _ & _ & Hr).
    induction Hr as [|n q gs q1 gs1 q' gs' Ha _ (s2 & E2)]; [now exists []|].
    apply IHa in Ha as (s1 & E1).
    exists (s1 ++ s2). now rewrite E1, E2, app_assoc.
  - intros (gs1 & Ha & _). exact (IHa _ _ _ _ Ha).
Qed.

Lemma consumed_prefix q q' s : rest q = s ++ rest q' -> consumed q q' = s.
Proof.
  unfold consumed. intros ->. rewrite length_app.
  replace (List.length s + List.length (rest q') - List.length (rest q'))
    with (List.length s + 0) by lia.
  now rewrite firstn_app_2, app_nil_r.
Qed.

(** Rounds of a character class take characters of the class. *)
Lemma rounds_takes p n q gs q' gs' :
  rounds (takes p) n q gs q' gs' ->
  exists s, rest q = s ++ rest q' /\ Forall (fun c => p c = true) s
            /\ List.length s = n.
Proof.
  induction 1 as [|n q gs q1 gs1 q' gs' (c & t & E & Hp & -> & _) _
                    (s & Es & Hs & Hl)].
  - exists []. repeat split. constructor.
  - exists (c :: s). simpl in Es. rewrite E, Es. repeat split.
    + now constructor.
    + simpl. now rewrite Hl.
Qed.

(** The text a group around a repeated class has captured. *)
Lemma matches_class_group i items lo hi q gs q' gs' :
  matches unicode_alnum (Grp i (Rep (Cls items) lo hi)) q gs q' gs' ->
  exists s, group i gs' = Some s
            /\ Forall (fun c => existsb (in_item c) items = true) s
            /\ lo <= List.length s.
Proof.
  simpl. intros (gs1 & (n & Hlo & _ & Hr) & ->).
  apply rounds_takes in Hr as (s & Es & Hs & Hl).
  exists s. rewrite group_set_group_same, (consumed_prefix _ _ _ Es).
  repeat split; [exact Hs | lia].
Qed.

(** A match ends where it starts or later, and later by [drop r] at least. *)
Lemma matches_length r :
  forall q gs q' gs',
    matches unicode_alnum r q gs q' gs' ->
    List.length (rest q') + drop r <= List.length (rest q).
Proof.
  assert (T : forall p q gs q' gs',
             takes p q gs q' gs' ->
             List.length (rest q') + 1 <= List.length (rest q)).
  { intros p q gs q' gs' (c & t & E & _ & -> & _). rewrite E. simpl. lia. }
  unfold drop.
  induction r as [|c|items| | | |a IHa b IHb|a IHa lo hi|j a IHa];
    simpl; intros q gs q' gs'; try apply T.
  - intros [-> _]. lia.
  - intros (_ & -> & _). lia.
  - intros (q1 & gs1 & Ha & Hb). apply IHa in Ha. apply IHb in Hb.
    destruct (consuming a), (consuming b); simpl; lia.
  - intros (n & Hlo & _ & Hr).
    assert (le : forall n q gs q' gs',
               rounds (matches unicode_alnum a) n q gs q' gs' ->
               List.length (rest q') <= List.length (rest q)).
    { clear - IHa. induction 1 as [|n q gs q1 gs1 q' gs' Ha _ IH]; [lia|].
      apply IHa in Ha. lia. }
    destruct lo as [|lo]; [apply le in Hr; lia|].
    destruct Hr as [|n q gs q1 gs1 q' gs' Ha Hr]; [lia|].
    apply IHa in Ha. apply le in Hr. lia.
  - intros (gs1 & Ha & _). exact (IHa _ _ _ _ Ha).
Qed.

Lemma local_weaken d F : local d F -> local 0 F.
Proof. intros H k k' q gs E. apply H. intros q' gs' Hl. apply E. lia. Qed.

Lemma eat_local p : local 1 (eat p).
Proof.
  intros k k' q gs E. unfold eat. destruct (rest q) as [|c t] eqn:Eq;
    [reflexivity|].
  destruct (p c); [|reflexivity]. apply E. simpl. lia.
Qed.

Lemma iterate_local step d :
  local d step ->
  forall n lo, local (match lo with O => 0 | S _ => d end) (iterate step lo n).
Proof.
  intros Hstep. induction n as [|n IH]; intros lo k k' q gs E; simpl.
  - destruct lo; [|reflexivity]. apply E. lia.
  - destruct lo as [|lo].
    + rewrite (E q gs) by lia.
      replace (step (iterate step 0 n k) q gs)
        with (step (iterate step 0 n k') q gs); [reflexivity|].
      apply Hstep. intros q1 gs1 H1. symmetry. apply (IH 0).
      intros q2 gs2 H2. apply E. lia.
    + apply Hstep. intros q1 gs1 H1. apply (IH lo).
      intros q2 gs2 H2. apply E. destruct lo; lia.
Qed.

Lemma run_slack_local e r : local (drop r) (run_slack unicode_alnum e r).
Proof.
  unfold drop.
  induction r as [|c|items| | | |a IHa b IHb|a IHa lo hi|i a IHa]; simpl.
  - intros k k' q gs E. apply E. lia.
  - apply eat_local.
  - apply eat_local.
  - apply eat_local.
  - apply eat_local.
  - intros k k' q gs E. simpl. rewrite (E q gs) by lia. reflexivity.
  - intros k k' q gs E. simpl. apply IHa. intros q1 gs1 H1.
    apply IHb. intros q2 gs2 H2. apply E.
    destruct (consuming a), (consuming b); simpl in *; lia.
  - intros k k' q gs E. simpl.
    apply (iterate_local _ _ IHa). intros q' gs' H'. apply E.
    destruct lo; simpl in *; lia.
  - intros k k' q gs E. simpl. apply IHa. intros q' gs' H'.
    now rewrite (E q' _ H').
Qed.

(** Two step functions that agree give the same repetition. *)
Lemma iterate_ext step step' :
  (forall k q gs, step k q gs = step' k q gs) ->
  local 0 step' ->
  forall n lo k q gs, iterate step lo n k q gs = iterate step' lo n k q gs.
Proof.
  intros Hext Hloc. induction n as [|n IH]; intros lo k q gs; simpl;
    [reflexivity|].
  destruct lo as [|lo]; rewrite Hext.
  - rewrite (Hloc (iterate step 0 n k) (iterate step' 0 n k) q gs);
      [reflexivity|]. intros q' gs' _. apply IH.
  - apply Hloc. intros q' gs' _. apply IH.
Qed.

(** When each round takes a character, rounds beyond the characters left
    are never used. *)
Lemma iterate_cap step :
  local 1 step ->
  (forall k q gs res,
      step k q gs = Some res ->
      exists q' gs', List.length (rest q') + 1 <= List.length (rest q)
                     /\ k q' gs' = Some res) ->
  forall L q, List.length (rest q) <= L ->
  forall lo n n' k gs,
    lo + List.length (rest q) <= n -> lo + List.length (rest q) <= n' ->
    iterate step lo n k q gs = iterate step lo n' k q gs.
Proof.
  intros Hloc Hprog.
  assert (stuck : forall k q gs, List.length (rest q) = 0 ->
                                 step k q gs = None).
  { intros k q gs Hq. destruct (step k q gs) as [res|] eqn:E; [|reflexivity].
    apply Hprog in E as (q' & gs' & Hl & _). lia. }
  induction L as [|L IH]; intros q HL lo n n' k gs Hn Hn'.
  - assert (Hq : List.length (rest q) = 0) by lia.
    destruct n as [|n], n' as [|n']; simpl; try reflexivity;
      destruct lo as [|lo]; try lia; rewrite ?stuck by exact Hq; reflexivity.
  - destruct n as [|n], n' as [|n']; simpl.
    + reflexivity.
    + destruct lo; [|lia]. rewrite stuck by lia. reflexivity.
    + destruct lo; [|lia]. rewrite stuck by lia. reflexivity.
    + assert (E : forall lo', lo' + List.length (rest q) <= S n ->
                              lo' + List.length (rest q) <= S n' ->
                              step (iterate step (pred lo') n k) q gs
                              = step (iterate step (pred lo') n' k) q gs).
      { intros lo' H1 H2. apply Hloc. intros q1 gs1 Hq1.
        apply IH; [lia | destruct lo'; simpl; lia | destruct lo'; simpl; lia]. }
      destruct lo as [|lo].
      * specialize (E 0 Hn Hn'). simpl in E. now rewrite E.
      * exact (E (S lo) Hn Hn').
Qed.

(** More rounds for the unbounded repetitions change nothing when each of
    them repeats a pattern that takes a character. *)
Lemma run_slack_irrelevant r :
  loops_consume r = true ->
  forall e k q gs,
    run_slack unicode_alnum e r k q gs = run unicode_alnum r k q gs.
Proof.
  unfold run.
  induction r as [|c|items| | | |a IHa b IHb|a IHa lo hi|i a IHa];
    simpl; intros Hl e k q gs; try reflexivity.
  - apply andb_true_iff in Hl as [Ha Hb].
    rewrite (IHa Ha). apply (local_weaken _ _ (run_slack_local 0 a)).
    intros q' gs' _. now apply IHb.
  - assert (Ha : loops_consume a = true)
      by (destruct hi; [exact Hl | now apply andb_true_iff in Hl]).
    rewrite (iterate_ext _ (run_slack unicode_alnum 0 a));
      [|intros; now apply IHa | apply (local_weaken _ _ (run_slack_local 0 a))].
    destruct hi as [h|]; [reflexivity|].
    apply andb_true_iff in Hl as [_ Hc].
    apply (iterate_cap (run_slack unicode_alnum 0 a)) with (L := List.length (rest q));
      [| |lia|lia|lia].
    + generalize (run_slack_local 0 a). unfold drop. now rewrite Hc.
    + intros k0 q0 gs0 res E.
      apply run_slack_sound in E as (q' & gs' & Hm & E).
      exists q', gs'. split; [|exact E].
      apply matches_length in Hm. unfold drop in Hm. now rewrite Hc in Hm.
  - rewrite (IHa Hl). reflexivity.
Qed.

End MatcherFacts.

(* ------------------------------------------------------------------ *)
(** ** The patterns of the script *)

Lemma in_class_le items c :
  existsb (in_item c) items = true -> (c <= class_max items)%N.
Proof.
  induction items as [|it items IH]; simpl; [discriminate|].
  intros H. apply orb_true_iff in H as [H|H].
  - destruct it as [x|lo hi]; simpl in H.
    + apply N.eqb_eq in H. lia.
    + unfold Py.between in H. apply andb_true_iff in H as [_ H].
      apply N.leb_le in H. lia.
  - specialize (IH H). lia.
Qed.

Section PatternFacts.

Variable unicode_alnum : N -> bool.

(** Every match of a pattern of the script sets the groups the script reads
    from it, so [group_text] never falls back on the empty text. *)
Lemma script_groups_set :
  (forall item m,
      re_match unicode_alnum changelog_item_regex item = Some m ->
      group 1 m <> None /\ group 2 m <> None)
  /\ (forall line m,
         re_match unicode_alnum hook_line_regex line = Some m ->
         group 1 m <> None)
  /\ (forall label m,
         re_match unicode_alnum hook_label_regex label = Some m ->
         group 1 m <> None /\ group 3 m <> None).
Proof.
  assert (set : forall i r x m,
             In i (sure_groups r) ->
             re_match unicode_alnum r x = Some m -> group i m <> None).
  { intros i r x m Hi H. apply re_match_sound in H as (q' & H).
    apply (matches_groups _ _ _ _ _ _ _ H). now right. }
  split; [|split]; intros x m H.
  - split; refine (set _ _ _ _ _ H); vm_compute; tauto.
  - refine (set _ _ _ _ _ H); vm_compute; tauto.
  - split; refine (set _ _ _ _ _ H); vm_compute; tauto.
Qed.

(** The name the changelog pattern captures is a non-empty ASCII word. *)
Lemma changelog_hook_name item h v :
  changelog_hook unicode_alnum item = Some (h, v) ->
  h <> [] /\ Forall (fun c => (c < 128)%N) h.
Proof.
  unfold changelog_hook.
  destruct (re_match unicode_alnum changelog_item_regex item) as [m|] eqn:E;
    [|discriminate].
  intros [= <- _]. apply re_match_sound in E as (q' & H).
  unfold changelog_item_regex in H. cbn [seq] in H.
  destruct H as (q1 & gs1 & _ & q2 & gs2 & _ & q3 & gs3 & Hg & Hrest).
  apply matches_class_group in Hg as (s & Hs & Hclass & Hlen).
  assert (Hm : group 1 m = Some s).
  { rewrite <- Hs. refine (matches_frame _ 1 _ _ _ _ _ _ Hrest).
    vm_compute. intros [H|[]]. discriminate. }
  unfold group_text. rewrite Hm. split.
  - destruct s; [simpl in Hlen; lia | discriminate].
  - eapply Forall_impl; [|exact Hclass].
    intros c Hc. apply in_class_le in Hc. vm_compute in Hc.
    apply N.le_lt_trans with (m := 122%N); [exact Hc | reflexivity].
Qed.

(** The name the label pattern captures is an ASCII word. *)
Lemma parse_line_name line h v :
  parse_line unicode_alnum line = Some (h, v) ->
  Forall (fun c => (c < 128)%N) h.
Proof.
  unfold parse_line.
  destruct (re_match unicode_alnum hook_line_regex (Py.strip line))
    as [hook_line|]; [|discriminate].
  destruct (re_match unicode_alnum hook_label_regex (group_text 1 hook_line))
    as [m|] eqn:E; [|discriminate].
  intros [= <- _]. apply re_match_sound in E as (q' & H).
  unfold hook_label_regex in H. cbn [seq] in H.
  destruct H as (q1 & gs1 & Hurl & Hrest).
  unfold _url_regex in Hurl. cbn [seq] in Hurl.
  destruct Hurl as (q2 & gs2 & _ & q3 & gs3 & _ & q4 & gs4 & _ & q5 & gs5 & _
                    & q6 & gs6 & _ & Hg).
  apply matches_class_group in Hg as (s & Hs & Hclass & _).
  assert (Hm : group 1 m = Some s).
  { rewrite <- Hs. refine (matches_frame _ 1 _ _ _ _ _ _ Hrest).
    vm_compute. intros [H|[H|[]]]; discriminate. }
  unfold group_text. rewrite Hm.
  eapply Forall_impl; [|exact Hclass].
  intros c Hc. apply in_class_le in Hc. vm_compute in Hc.
  apply N.le_lt_trans with (m := 126%N); [exact Hc | reflexivity].
Qed.

(** The patterns of the script repeat without bound only patterns that take
    a character, so [re_match] gives their unbounded repetitions all the
    rounds they can use: allowing [e] more changes no result. *)
Theorem script_patterns_unbounded (e : nat) (s : str) :
  run_slack unicode_alnum e changelog_item_regex (fun _ gs => Some gs)
            (Pos None s) []
  = re_match unicode_alnum changelog_item_regex s
  /\ run_slack unicode_alnum e hook_line_regex (fun _ gs => Some gs)
               (Pos None s) []
     = re_match unicode_alnum hook_line_regex s
  /\ run_slack unicode_alnum e hook_label_regex (fun _ gs => Some gs)
               (Pos None s) []
     = re_match unicode_alnum hook_label_regex s.
Proof.
  unfold re_match.
  split; [|split]; apply run_slack_irrelevant; vm_compute; reflexivity.
Qed.

End PatternFacts.

(* ------------------------------------------------------------------ *)
(** ** Cleaning a version string *)

Lemma clean_version_str_cons (c : N) (t : str) :
  clean_version_str (c :: t) =
  if (N.eqb (ch "v") c || N.eqb (ch "V") c)%bool then t else c :: t.
Proof.
  unfold clean_version_str.
  change (Py.lit "v") with [ch "v"]; change (Py.lit "V") with [ch "V"].
  cbn [Py.startswith tl]. rewrite !Bool.andb_true_r. reflexivity.
Qed.

(** C7.  [clean_version_str] returns a string that starts with neither [v]
    nor [V] as it is; from one that starts with [v] or [V] it removes the
    first character and nothing else; so cleaning a string that is already
    clean, once or twice, gives that string. *)
Theorem clean_version_str_spec :
  (forall s : str,
      (forall c t, s = c :: t -> c <> ch "v" /\ c <> ch "V") ->
      clean_version_str s = s)
  /\ (forall (c : N) (t : str),
         c = ch "v" \/ c = ch "V" -> clean_version_str (c :: t) = t)
  /\ (forall s : str,
         (forall c t, s = c :: t -> c <> ch "v" /\ c <> ch "V") ->
         clean_version_str (clean_version_str s) = clean_version_str s).
Proof.
  assert (clean : forall s : str,
             (forall c t, s = c :: t -> c <> ch "v" /\ c <> ch "V") ->
             clean_version_str s = s).
  { intros [|c t] H; [reflexivity|].
    destruct (H c t eq_refl) as [Hv HV].
    rewrite clean_version_str_cons.
    destruct (N.eqb_spec (ch "v") c); [congruence|].
    destruct (N.eqb_spec (ch "V") c); [congruence|]. reflexivity. }
  split; [exact clean|]. split.
  - intros c t [->| ->]; reflexivity.
  - intros s H. now rewrite !(clean s H).
Qed.

(* ------------------------------------------------------------------ *)
(** ** The loader *)

Section LoaderFacts.

Variable to_dict : str -> bool -> result (dict value).
Variable to_sorted_semantic : list str -> result (list (str * value)).

Lemma bind_ok {A B : Type} (m : result A) (f : A -> result B) (b : B) :
  bind m f = Ok b -> exists a, m = Ok a /\ f a = Ok b.
Proof. destruct m as [a|e]; simpl; [eauto | discriminate]. Qed.

(** A changelog that has an unreleased entry is returned as read. *)
Lemma get_changelog_present path flag changelog :
  to_dict path flag = Ok changelog ->
  dict_mem unreleased changelog = true ->
  get_changelog to_dict to_sorted_semantic path flag = Ok changelog.
Proof. unfold get_changelog; intros -> Hm; simpl. now rewrite Hm. Qed.

(** How a changelog without one gets its unreleased entry: the steps of the
    loader, each having succeeded. *)
Lemma get_changelog_synthesized path flag changelog changelog' :
  to_dict path flag = Ok changelog ->
  dict_mem unreleased changelog = false ->
  get_changelog to_dict to_sorted_semantic path flag = Ok changelog' ->
  exists values versions sorted last version_name,
    versions_of changelog = Ok values
    /\ mapM version_text values = Ok versions
    /\ to_sorted_semantic (List.map clean_version_str versions) = Ok sorted
    /\ last_item sorted = Ok last
    /\ next_containing (fst last) versions = Ok version_name
    /\ changelog' = (unreleased, synthesized_entry version_name) :: changelog.
Proof.
  unfold get_changelog; intros -> Hm; simpl; rewrite Hm; intros H.
  apply bind_ok in H as (values & Hv & H).
  apply bind_ok in H as (versions & Hc & H).
  apply bind_ok in H as (sorted & Hs & H).
  apply bind_ok in H as (last & Hl & H).
  apply bind_ok in H as (version_name & Hn & H).
  exists values, versions, sorted, last, version_name.
  repeat split; try assumption. congruence.
Qed.

Lemma next_containing_first last_version versions version_name :
  next_containing last_version versions = Ok version_name ->
  exists before after,
    versions = before ++ version_name :: after
    /\ Py.contains last_version version_name = true
    /\ Forall (fun v => Py.contains last_version v = false) before.
Proof.
  induction versions as [|v versions IH]; simpl; [discriminate|].
  destruct (Py.contains last_version v) eqn:E.
  - intros [= ->]. exists [], versions.
    split; [reflexivity | split; [exact E | constructor]].
  - intros H. destruct (IH H) as (before & after & -> & Hc & Hb).
    exists (v :: before), after.
    split; [reflexivity | split; [exact Hc | now constructor]].
Qed.

(** The version in the compare link of the entry the loader makes up: the
    first version of the changelog, in its order, that contains the cleaned
    text of the version sorted last. *)
Lemma get_changelog_first_containing path flag changelog changelog' :
  to_dict path flag = Ok changelog ->
  dict_mem unreleased changelog = false ->
  get_changelog to_dict to_sorted_semantic path flag = Ok changelog' ->
  exists values sorted last before version_name after,
    versions_of changelog = Ok values
    /\ mapM version_text values = Ok (before ++ version_name :: after)
    /\ to_sorted_semantic
         (List.map clean_version_str (before ++ version_name :: after))
       = Ok sorted
    /\ last_item sorted = Ok last
    /\ Py.contains (fst last) version_name = true
    /\ Forall (fun v => Py.contains (fst last) v = false) before
    /\ changelog' = (unreleased, synthesized_entry version_name) :: changelog.
Proof.
  intros Hd Hm H.
  destruct (get_changelog_synthesized _ _ _ _ Hd Hm H)
    as (values & versions & sorted & last & version_name
        & Hv & Ht & Hs & Hl & Hn & ->).
  apply next_containing_first in Hn as (before & after & -> & Hc & Hb).
  exists values, sorted, last, before, version_name, after.
  split; [exact Hv|]. split; [exact Ht|]. split; [exact Hs|].
  split; [exact Hl|]. split; [exact Hc|]. split; [exact Hb | reflexivity].
Qed.

Lemma versions_of_no_versioned_entry changelog :
  no_versioned_entry changelog -> versions_of changelog = Ok [].
Proof.
  induction 1 as [|[k v] l (m & Hm & Hx) _ IH]; simpl in *; [reflexivity|].
  rewrite Hm; simpl. rewrite Hx; simpl. rewrite IH. reflexivity.
Qed.

(** C8.  Loading a changelog that has neither an unreleased entry nor an
    entry with a version fails: nothing is left to take the last version
    from, and the indexing raises [IndexError]. *)
Theorem get_changelog_no_history path flag changelog :
  to_dict path flag = Ok changelog ->
  dict_mem unreleased changelog = false ->
  no_versioned_entry changelog ->
  to_sorted_semantic [] = Ok [] ->
  get_changelog to_dict to_sorted_semantic path flag = Error IndexError.
Proof.
  intros Hd Hm Hv Hs. unfold get_changelog. rewrite Hd; simpl. rewrite Hm.
  rewrite (versions_of_no_versioned_entry _ Hv); simpl. now rewrite Hs.
Qed.

(** C10.  When the loader makes up the unreleased entry, the entry is put in
    front of the changelog as read, and its compare link names the
    repository Takishima/flake8-secure-coding-standard whatever the path and
    the changelog: only the version before [...HEAD] depends on them. *)
Theorem get_changelog_fixed_repository path flag changelog changelog' :
  to_dict path flag = Ok changelog ->
  dict_mem unreleased changelog = false ->
  get_changelog to_dict to_sorted_semantic path flag = Ok changelog' ->
  exists version_name : str,
    changelog' =
    (unreleased,
     VDict [(metadata,
             VDict [(Py.lit "release_data", VNone);
                    (Py.lit "url",
                     VStr (Py.lit "https://github.com/Takishima/flake8-secure-coding-standard/compare/"
                           ++ version_name ++ Py.lit "...HEAD"));
                    (version, VStr unreleased)])]) :: changelog.
Proof.
  intros Hd Hm H.
  destruct (get_changelog_synthesized _ _ _ _ Hd Hm H)
    as (_ & _ & _ & _ & version_name & _ & _ & _ & _ & _ & ->).
  now exists version_name.
Qed.

End LoaderFacts.

(* ------------------------------------------------------------------ *)
(** ** The pull request body *)

Section ParserFacts.

Variable unicode_alnum : N -> bool.

Lemma markers_differ : Py.eqb pr_body_marker_end pr_body_marker_start = false.
Proof. reflexivity. Qed.

(** Before the start marker every line is skipped. *)
Lemma scan_lines_skip pre rest d :
  (forall l, In l pre -> Py.strip l <> pr_body_marker_start) ->
  scan_lines unicode_alnum (pre ++ rest) true d
  = scan_lines unicode_alnum rest true d.
Proof.
  induction pre as [|l pre IH]; intros H; simpl; [reflexivity|].
  rewrite (eqb_false _ _ (H l (or_introl eq_refl))).
  apply IH. intros l' Hl'. apply H. now right.
Qed.

(** The end marker, or the end of the text, closes the region. *)
Lemma scan_lines_stop region tail d :
  tail = [] \/ (exists e post,
                   tail = e :: post /\ Py.strip e = pr_body_marker_end) ->
  scan_lines unicode_alnum (region ++ tail) false d
  = scan_lines unicode_alnum region false d.
Proof.
  intros Htail. revert d.
  induction region as [|l region IH]; intros d; simpl.
  - destruct Htail as [->|(e & post & -> & He)]; [reflexivity|].
    simpl. rewrite He, markers_differ. now rewrite eqb_refl.
  - destruct (Py.eqb (Py.strip l) pr_body_marker_start); [apply IH|].
    destruct (Py.eqb (Py.strip l) pr_body_marker_end); [reflexivity|].
    destruct (parse_line unicode_alnum l) as [[h v]|]; apply IH.
Qed.

(** The parser reads the marked region and nothing else. *)
Lemma parse_pull_request_body_region body region :
  region_of (Py.splitlines body) region ->
  parse_pull_request_body unicode_alnum body = scan_lines unicode_alnum region false [].
Proof.
  intros (pre & s & tail & Hl & Hpre & Hs & _ & Htail).
  unfold parse_pull_request_body. rewrite Hl, (scan_lines_skip _ _ _ Hpre).
  simpl. rewrite Hs, eqb_refl. now apply scan_lines_stop.
Qed.

(** Every name in the result is recorded by a line that was scanned. *)
Lemma scan_lines_keys lines skip d h :
  In h (keys (scan_lines unicode_alnum lines skip d)) ->
  In h (keys d)
  \/ exists l v, In l lines /\ parse_line unicode_alnum l = Some (h, v).
Proof.
  revert skip d; induction lines as [|l lines IH]; intros skip d; simpl;
    [now left|].
  assert (step : forall skip' d',
             In h (keys (scan_lines unicode_alnum lines skip' d')) ->
             (In h (keys d') -> In h (keys d)
                \/ exists l0 v, (l = l0 \/ In l0 lines)
                                /\ parse_line unicode_alnum l0 = Some (h, v)) ->
             In h (keys d)
             \/ exists l0 v, (l = l0 \/ In l0 lines)
                             /\ parse_line unicode_alnum l0 = Some (h, v)).
  { intros skip' d' Hin Hd'.
    destruct (IH _ _ Hin) as [H|(l0 & v & Hl0 & Hp)]; [auto|].
    right; exists l0, v; auto. }
  destruct (Py.eqb (Py.strip l) pr_body_marker_start);
    [intros H; apply (step _ _ H); auto|].
  destruct skip; [intros H; apply (step _ _ H); auto|].
  destruct (Py.eqb (Py.strip l) pr_body_marker_end); [now left|].
  destruct (parse_line unicode_alnum l) as [[h' v']|] eqn:Hp;
    [|intros H; apply (step _ _ H); auto].
  intros H; apply (step _ _ H). intros Hin.
  apply in_keys_dict_set in Hin as [->|Hin]; [|now left].
  right; exists l, v'; auto.
Qed.

(** C6.  Two pull request bodies with the same lines between the start
    marker and the end marker are parsed to the same dictionary, whatever
    stands before the start marker and after the end marker; the result is
    read off the marked region alone, so each of its names is recorded by a
    line of the region, and a line outside contributes nothing. *)
Theorem parse_pull_request_body_ignores_outside body1 body2 region :
  region_of (Py.splitlines body1) region ->
  region_of (Py.splitlines body2) region ->
  parse_pull_request_body unicode_alnum body1 = parse_pull_request_body unicode_alnum body2
  /\ parse_pull_request_body unicode_alnum body1 = scan_lines unicode_alnum region false []
  /\ forall h, In h (keys (parse_pull_request_body unicode_alnum body1)) ->
               exists l v, In l region
                           /\ parse_line unicode_alnum l = Some (h, v).
Proof.
  intros H1 H2.
  rewrite (parse_pull_request_body_region _ _ H1), (parse_pull_request_body_region _ _ H2).
  repeat split. intros h Hh.
  destruct (scan_lines_keys _ _ _ _ Hh) as [[]|H]. exact H.
Qed.

(** A line that records a hook is not the start marker. *)
Lemma parse_line_not_start l p :
  parse_line unicode_alnum l = Some p ->
  Py.eqb (Py.strip l) pr_body_marker_start = false.
Proof.
  intros H. destruct (eqb_spec (Py.strip l) pr_body_marker_start) as [E|];
    [|reflexivity].
  unfold parse_line in H. rewrite E in H.
  assert (N0 : re_match unicode_alnum hook_line_regex pr_body_marker_start = None)
    by reflexivity.
  rewrite N0 in H. discriminate.
Qed.

(** Inside the region, up to the end marker, the scan goes line by line. *)
Lemma scan_lines_app l1 rest d :
  (forall l, In l l1 -> Py.strip l <> pr_body_marker_end) ->
  scan_lines unicode_alnum (l1 ++ rest) false d
  = scan_lines unicode_alnum rest false (scan_lines unicode_alnum l1 false d).
Proof.
  revert d; induction l1 as [|l l1 IH]; intros d H; simpl; [reflexivity|].
  assert (H' : forall l', In l' l1 -> Py.strip l' <> pr_body_marker_end)
    by (intros l' Hl'; apply H; now right).
  destruct (Py.eqb (Py.strip l) pr_body_marker_start); [now apply IH|].
  rewrite (eqb_false _ _ (H l (or_introl eq_refl))).
  destruct (parse_line unicode_alnum l) as [[h v]|]; now apply IH.
Qed.

(** Lines that do not record [h] leave its version as it is. *)
Lemma scan_lines_keeps lines skip d h v :
  (forall y v', In y lines -> parse_line unicode_alnum y <> Some (h, v')) ->
  dict_get h d = Some v ->
  dict_get h (scan_lines unicode_alnum lines skip d) = Some v.
Proof.
  revert skip d; induction lines as [|l lines IH]; intros skip d H Hd; simpl;
    [exact Hd|].
  assert (H' : forall y v', In y lines ->
                            parse_line unicode_alnum y <> Some (h, v'))
    by (intros y v' Hy; apply H; now right).
  destruct (Py.eqb (Py.strip l) pr_body_marker_start); [now apply IH|].
  destruct skip; [now apply IH|].
  destruct (Py.eqb (Py.strip l) pr_body_marker_end); [exact Hd|].
  destruct (parse_line unicode_alnum l) as [[h' v']|] eqn:Hp; [|now apply IH].
  apply IH; [exact H'|].
  rewrite dict_get_set_other; [exact Hd|].
  intros ->. exact (H l v' (or_introl eq_refl) Hp).
Qed.

Lemma scan_lines_NoDup lines skip d :
  NoDup (keys d) -> NoDup (keys (scan_lines unicode_alnum lines skip d)).
Proof.
  revert skip d; induction lines as [|l lines IH]; intros skip d Hd; simpl;
    [exact Hd|].
  destruct (Py.eqb (Py.strip l) pr_body_marker_start); [now apply IH|].
  destruct skip; [now apply IH|].
  destruct (Py.eqb (Py.strip l) pr_body_marker_end); [exact Hd|].
  destruct (parse_line unicode_alnum l) as [[h' v']|]; [|now apply IH].
  apply IH. now apply NoDup_keys_dict_set.
Qed.

(* ------------------------------------------------------------------ *)
(** ** The changelog section *)

Lemma parse_item_hook acc item h v :
  changelog_hook unicode_alnum item = Some (h, v) ->
  parse_item unicode_alnum acc item = (fst acc, dict_set h v (snd acc)).
Proof. intros H; destruct acc; unfold parse_item; now rewrite H. Qed.

Lemma parse_item_other acc item :
  changelog_hook unicode_alnum item = None ->
  snd (parse_item unicode_alnum acc item) = snd acc.
Proof. intros H; destruct acc; unfold parse_item; rewrite H; now destruct item. Qed.

Lemma parse_items_keeps items acc h v :
  (forall y v', In y items -> changelog_hook unicode_alnum y <> Some (h, v')) ->
  dict_get h (snd acc) = Some v ->
  dict_get h (snd (fold_left (parse_item unicode_alnum) items acc)) = Some v.
Proof.
  revert acc; induction items as [|x items IH]; intros acc H Hd; simpl;
    [exact Hd|].
  apply IH; [intros y v' Hy; apply H; now right|].
  destruct (changelog_hook unicode_alnum x) as [[h' v']|] eqn:Hx.
  - rewrite (parse_item_hook _ _ _ _ Hx); simpl.
    rewrite dict_get_set_other; [exact Hd|].
    intros ->. exact (H x v' (or_introl eq_refl) Hx).
  - now rewrite (parse_item_other _ _ Hx).
Qed.

Lemma parse_items_NoDup items acc :
  NoDup (keys (snd acc)) ->
  NoDup (keys (snd (fold_left (parse_item unicode_alnum) items acc))).
Proof.
  revert acc; induction items as [|x items IH]; intros acc Hd; simpl;
    [exact Hd|].
  apply IH.
  destruct (changelog_hook unicode_alnum x) as [[h' v']|] eqn:Hx.
  - rewrite (parse_item_hook _ _ _ _ Hx); simpl. now apply NoDup_keys_dict_set.
  - now rewrite (parse_item_other _ _ Hx).
Qed.

Lemma parse_items_content items acc :
  fst (fold_left (parse_item unicode_alnum) items acc)
  = fst acc
    ++ filter (fun item =>
                 match changelog_hook unicode_alnum item with
                 | Some _ => false
                 | None => negb (Py.eqb item [])
                 end) items.
Proof.
  revert acc; induction items as [|x items IH]; intros [content data]; simpl;
    [now rewrite app_nil_r|].
  rewrite IH. unfold parse_item.
  destruct (changelog_hook unicode_alnum x) as [[h v]|]; [reflexivity|].
  destruct x as [|c x]; simpl; [reflexivity|]. now rewrite <- app_assoc.
Qed.

Lemma parse_items_keys items acc h :
  In h (keys (snd (fold_left (parse_item unicode_alnum) items acc)))
  <-> In h (keys (snd acc))
      \/ exists item v,
           In item items /\ changelog_hook unicode_alnum item = Some (h, v).
Proof.
  revert acc; induction items as [|x items IH]; intros acc; simpl.
  - split; [now left | intros [H|(item & v & [] & _)]; exact H].
  - rewrite IH.
    destruct (changelog_hook unicode_alnum x) as [[h' v']|] eqn:Hx.
    + rewrite (parse_item_hook _ _ _ _ Hx); simpl. rewrite in_keys_dict_set.
      split.
      * intros [[->|H]|(item & v & Hin & Hi)].
        -- right. exists x, v'. auto.
        -- now left.
        -- right. exists item, v. auto.
      * intros [H|(item & v & [<-|Hin] & Hi)].
        -- left. now right.
        -- left. left. congruence.
        -- right. exists item, v. auto.
    + rewrite (parse_item_other _ _ Hx).
      split.
      * intros [H|(item & v & Hin & Hi)]; [now left|].
        right. exists item, v. auto.
      * intros [H|(item & v & [<-|Hin] & Hi)]; [now left | congruence |].
        right. exists item, v. auto.
Qed.

(** The loop of [parse_changelog] splits the section: the lines it keeps are
    the non-empty lines that record no hook, in their order; the names of
    its dictionary are those the other lines record; an empty line is in
    neither. *)
Theorem parse_changelog_partition (items : list str) :
  fst (fold_left (parse_item unicode_alnum) items ([], []))
  = filter (fun item =>
              match changelog_hook unicode_alnum item with
              | Some _ => false
              | None => negb (Py.eqb item [])
              end) items
  /\ forall h,
       In h (keys (snd (fold_left (parse_item unicode_alnum) items ([], []))))
       <-> exists item v,
             In item items /\ changelog_hook unicode_alnum item = Some (h, v).
Proof.
  split; [apply parse_items_content|].
  intros h. rewrite parse_items_keys. simpl. tauto.
Qed.

(** C9.  In the changelog section parser and in the pull request body
    parser alike, a name recorded by several lines keeps the version of the
    last of them: if a line records [h] at [v] and no later line of the
    section (of the marked region) records [h], the dictionary holds [v] for
    [h]; and no name occurs twice among its keys. *)
Theorem last_recorded_version_wins :
  (forall changelog target_section entry r l1 x l2 h v,
      getitem (VDict changelog) unreleased = Ok entry ->
      setdefault entry target_section (VList []) = Ok r ->
      iter (snd r) = Ok (l1 ++ x :: l2) ->
      changelog_hook unicode_alnum x = Some (h, v) ->
      (forall y v', In y l2 -> changelog_hook unicode_alnum y <> Some (h, v')) ->
      exists changelog' new_content hook_data,
        parse_changelog unicode_alnum changelog target_section
        = Ok (changelog', (new_content, hook_data))
        /\ dict_get h hook_data = Some v
        /\ NoDup (keys hook_data))
  /\ (forall pr_body l1 x l2 h v,
         region_of (Py.splitlines pr_body) (l1 ++ x :: l2) ->
         parse_line unicode_alnum x = Some (h, v) ->
         (forall y v', In y l2 -> parse_line unicode_alnum y <> Some (h, v')) ->
         dict_get h (parse_pull_request_body unicode_alnum pr_body) = Some v
         /\ NoDup (keys (parse_pull_request_body unicode_alnum pr_body))).
Proof.
  split.
  - intros changelog target_section entry r l1 x l2 h v He Hr Hi Hx Hl2.
    unfold parse_changelog. rewrite He; simpl. rewrite Hr; simpl.
    rewrite Hi; simpl.
    destruct (fold_left (parse_item unicode_alnum) (l1 ++ x :: l2) ([], []))
      as [new_content hook_data] eqn:E.
    exists (dict_set unreleased (fst r) changelog), new_content, hook_data.
    split; [reflexivity|].
    assert (Hd : hook_data
                 = snd (fold_left (parse_item unicode_alnum) (l1 ++ x :: l2)
                                  ([], []))) by now rewrite E.
    rewrite Hd. split.
    + rewrite fold_left_app; simpl. apply parse_items_keeps; [exact Hl2|].
      rewrite (parse_item_hook _ _ _ _ Hx); simpl. apply dict_get_set_same.
    + apply parse_items_NoDup. constructor.
  - intros pr_body l1 x l2 h v Hreg Hx Hl2.
    rewrite (parse_pull_request_body_region _ _ Hreg).
    split; [|apply scan_lines_NoDup; constructor].
    destruct Hreg as (_ & _ & _ & _ & _ & _ & Hend & _).
    rewrite scan_lines_app
      by (intros l Hl; apply Hend, in_or_app; now left).
    simpl. rewrite (parse_line_not_start _ _ Hx).
    rewrite (eqb_false _ _ (Hend x (in_elt x l1 l2))), Hx.
    apply scan_lines_keeps; [exact Hl2 | apply dict_get_set_same].
Qed.

End ParserFacts.

(* ------------------------------------------------------------------ *)
(** ** Carrying the recorded versions forward *)

Lemma any_match_spec h d :
  any_match h d = true <->
  exists k, In k (keys d) /\ Py.contains (Py.lower h) (Py.lower k) = true.
Proof. unfold any_match. apply existsb_exists. Qed.

Lemma any_match_dict_set h k v d :
  any_match h d = true -> any_match h (dict_set k v d) = true.
Proof.
  rewrite !any_match_spec. intros (k' & Hin & Hc). exists k'. split; [|exact Hc].
  apply in_keys_dict_set. now right.
Qed.

Lemma any_match_self h v d : any_match h (dict_set h v d) = true.
Proof.
  apply any_match_spec. exists h. split; [|apply contains_refl].
  apply in_keys_dict_set. now left.
Qed.

Lemma carry_forward_app p1 p2 d :
  carry_forward (p1 ++ p2) d = carry_forward p2 (carry_forward p1 d).
Proof.
  revert d; induction p1 as [|[h v] p1 IH]; intros d; simpl; [reflexivity|].
  destruct (any_match h d); apply IH.
Qed.

(** A name that matches a key of the dictionary is never assigned. *)
Lemma carry_forward_matched items d h :
  any_match h d = true ->
  dict_get h (carry_forward items d) = dict_get h d.
Proof.
  revert d; induction items as [|[h' v'] items IH]; intros d Hm; simpl;
    [reflexivity|].
  destruct (any_match h' d) eqn:Hm'; [now apply IH|].
  rewrite IH by now apply any_match_dict_set.
  apply dict_get_set_other. intros ->. congruence.
Qed.

(** The loop adds names of its items only. *)
Lemma carry_forward_keys items d k :
  In k (keys (carry_forward items d)) -> In k (keys d) \/ In k (keys items).
Proof.
  revert d; induction items as [|[h v] items IH]; intros d; simpl; [now left|].
  destruct (any_match h d); intros H; apply IH in H as [H|H]; auto.
  apply in_keys_dict_set in H as [->|H]; auto.
Qed.

Lemma carry_forward_unmatched items d h :
  any_match h d = false ->
  (forall h', In h' (keys items) ->
              Py.contains (Py.lower h) (Py.lower h') = false) ->
  any_match h (carry_forward items d) = false.
Proof.
  intros Hd Hitems.
  destruct (any_match h (carry_forward items d)) eqn:E; [|reflexivity].
  apply any_match_spec in E as (k & Hk & Hc).
  apply carry_forward_keys in Hk as [Hk|Hk].
  - assert (any_match h d = true) by (apply any_match_spec; eauto). congruence.
  - rewrite (Hitems k Hk) in Hc. discriminate.
Qed.

(** The merge of the two records, as amended for C2.  A name of the
    changelog record that matches a name of the pull request record is not
    carried: the merged record holds for it what the pull request record
    holds (its version there when it is one of its names, nothing
    otherwise).  A name of the changelog record that matches no name of the
    pull request record and no name before it in the changelog record is
    carried with its version. *)
Theorem carry_forward_precedence :
  (forall hook_data new_hook_data h,
      In h (keys hook_data) ->
      any_match h new_hook_data = true ->
      dict_get h (carry_forward hook_data new_hook_data)
      = dict_get h new_hook_data)
  /\ (forall before h v after new_hook_data,
         any_match h new_hook_data = false ->
         (forall h', In h' (keys before) ->
                     Py.contains (Py.lower h) (Py.lower h') = false) ->
         dict_get h (carry_forward (before ++ (h, v) :: after) new_hook_data)
         = Some v).
Proof.
  split.
  - intros hook_data new_hook_data h _ Hm. now apply carry_forward_matched.
  - intros before h v after new_hook_data Hm Hbefore.
    rewrite carry_forward_app; simpl.
    rewrite (carry_forward_unmatched _ _ _ Hm Hbefore).
    rewrite carry_forward_matched by apply any_match_self.
    apply dict_get_set_same.
Qed.

(* ------------------------------------------------------------------ *)
(** ** The order of the generated lines *)

Lemma ltb_asym a b : Py.ltb a b = true -> Py.ltb b a = false.
Proof.
  revert b; induction a as [|x a IH]; intros [|y b]; simpl; try congruence.
  destruct (N.ltb_spec x y) as [Hlt|Hge].
  - intros _. destruct (N.ltb_spec y x); [lia|].
    destruct (N.eqb_spec y x); [lia | reflexivity].
  - destruct (N.eqb_spec x y) as [->|Hne]; [|discriminate].
    rewrite N.ltb_irrefl, N.eqb_refl. apply IH.
Qed.

Lemma ltb_total a b : Py.ltb a b = false -> Py.ltb b a = false -> a = b.
Proof.
  revert b; induction a as [|x a IH]; intros [|y b]; simpl; try congruence.
  destruct (N.ltb_spec x y) as [Hlt|Hge]; [discriminate|].
  destruct (N.eqb_spec x y) as [->|Hne].
  - rewrite N.ltb_irrefl, N.eqb_refl. intros H1 H2. f_equal. now apply IH.
  - intros _. destruct (N.ltb_spec y x); [discriminate | lia].
Qed.

Lemma key_lt_le a b : key_lt a b -> key_le a b.
Proof. unfold key_lt, key_le, Py.leb. intros H. now rewrite (ltb_asym _ _ H). Qed.

Lemma insert_by_lower_HdRel y x l :
  key_le y x -> HdRel key_le y l -> HdRel key_le y (insert_by_lower x l).
Proof.
  intros Hyx Hl. destruct l as [|z l]; simpl; [now constructor|].
  destruct (Py.ltb (Py.lower x) (Py.lower z)); constructor; [exact Hyx|].
  now inversion Hl.
Qed.

Lemma insert_by_lower_Sorted x l :
  Sorted key_le l -> Sorted key_le (insert_by_lower x l).
Proof.
  induction 1 as [|y l Hs IH Hh]; simpl; [repeat constructor|].
  destruct (Py.ltb (Py.lower x) (Py.lower y)) eqn:E.
  - constructor; [now constructor|]. constructor. now apply key_lt_le.
  - constructor; [exact IH|]. apply insert_by_lower_HdRel; [|exact Hh].
    unfold key_le, Py.leb. now rewrite E.
Qed.

Lemma insert_by_lower_Permutation x l : Permutation (insert_by_lower x l) (x :: l).
Proof.
  induction l as [|y l IH]; simpl; [reflexivity|].
  destruct (Py.ltb (Py.lower x) (Py.lower y)); [reflexivity|].
  rewrite IH. apply perm_swap.
Qed.

Lemma sorted_from_Sorted names acc :
  Sorted key_le acc ->
  Sorted key_le (fold_left (fun acc x => insert_by_lower x acc) names acc).
Proof.
  revert acc; induction names as [|x names IH]; intros acc H; simpl;
    [exact H|].
  apply IH. now apply insert_by_lower_Sorted.
Qed.

Lemma sorted_from_Permutation names acc :
  Permutation (fold_left (fun acc x => insert_by_lower x acc) names acc)
              (acc ++ names).
Proof.
  revert acc; induction names as [|x names IH]; intros acc; simpl.
  - now rewrite app_nil_r.
  - rewrite IH, insert_by_lower_Permutation. apply Permutation_middle.
Qed.

Lemma Sorted_key_lt l :
  Sorted key_le l -> NoDup (List.map Py.lower l) -> Sorted key_lt l.
Proof.
  induction 1 as [|x l Hs IH Hh]; intros Hnd; [constructor|].
  simpl in Hnd. inversion Hnd as [|? ? Hx Hnd']; subst.
  constructor; [now apply IH|].
  destruct Hh as [|y l Hxy]; constructor.
  unfold key_le, Py.leb in Hxy. apply negb_true_iff in Hxy.
  unfold key_lt. destruct (Py.ltb (Py.lower x) (Py.lower y)) eqn:E;
    [reflexivity|].
  exfalso; apply Hx. rewrite (ltb_total _ _ E Hxy). now left.
Qed.

(** The order of the generated lines, as amended for C5.  The lines are the
    update lines of the names of the merged record, each once, in an order
    in which the lowercase form of a name never comes after that of the next
    one; it comes strictly before it when no two names of the record have
    the same lowercase form. *)
Theorem generated_lines_ordered (new_hook_data : dict str) :
  generated_lines new_hook_data
  = List.map (update_line new_hook_data)
             (sorted_by_lower (keys new_hook_data))
  /\ Permutation (sorted_by_lower (keys new_hook_data)) (keys new_hook_data)
  /\ Sorted key_le (sorted_by_lower (keys new_hook_data))
  /\ (NoDup (List.map Py.lower (keys new_hook_data)) ->
      Sorted key_lt (sorted_by_lower (keys new_hook_data))).
Proof.
  assert (P : Permutation (sorted_by_lower (keys new_hook_data))
                          (keys new_hook_data))
    by apply (sorted_from_Permutation _ []).
  assert (S : Sorted key_le (sorted_by_lower (keys new_hook_data)))
    by (apply sorted_from_Sorted; constructor).
  repeat split; try assumption.
  intros Hnd. apply Sorted_key_lt; [exact S|].
  apply (Permutation_NoDup (l := List.map Py.lower (keys new_hook_data)));
    [|exact Hnd].
  apply Permutation_map. now symmetry.
Qed.

(* ------------------------------------------------------------------ *)
(** ** The names of the merged record *)

Section NameFacts.

Variable unicode_alnum : N -> bool.

(** Every name of the record the update merges, whatever the section and
    the body, is a word of ASCII characters: what [Py.lower] lowers is
    ASCII text, on which it is [str.lower]. *)
Theorem merged_names_ascii (items : list str) (pr_body : str) :
  Forall (Forall (fun c => (c < 128)%N))
         (keys (carry_forward
                  (snd (fold_left (parse_item unicode_alnum) items ([], [])))
                  (parse_pull_request_body unicode_alnum pr_body))).
Proof.
  apply Forall_forall. intros h Hh.
  apply carry_forward_keys in Hh as [Hh|Hh].
  - apply scan_lines_keys in Hh as [[]|(l & v & _ & Hl)].
    exact (parse_line_name _ _ _ _ Hl).
  - apply parse_items_keys in Hh as [[]|(item & v & _ & Hi)].
    exact (proj2 (changelog_hook_name _ _ _ _ Hi)).
Qed.

End NameFacts.

(* ------------------------------------------------------------------ *)
(** ** The whole update *)

Section UpdateFacts.

Variable unicode_alnum : N -> bool.
Variable to_dict : str -> bool -> result (dict value).
Variable to_sorted_semantic : list str -> result (list (str * value)).

Lemma dict_set_twice {V : Type} (k : str) (v1 v2 : V) (d : dict V) :
  dict_set k v2 (dict_set k v1 d) = dict_set k v2 d.
Proof.
  induction d as [|[k' v'] d IH]; simpl.
  - now rewrite eqb_refl.
  - destruct (Py.eqb k k') eqn:E; simpl; [now rewrite eqb_refl|].
    now rewrite E, IH.
Qed.

(** The update of a changelog whose unreleased entry has the target section:
    the section is replaced by the lines that record no hook, followed by
    the generated lines of the merged record; nothing else changes. *)
Lemma udpate_changelog_from_pr_body_section
    path pr_body target_section changelog entry items :
  to_dict path true = Ok changelog ->
  dict_get unreleased changelog = Some (VDict entry) ->
  dict_get target_section entry = Some (VList items) ->
  udpate_changelog_from_pr_body unicode_alnum to_dict to_sorted_semantic path pr_body target_section
  = let parsed := fold_left (parse_item unicode_alnum) items ([], []) in
    let merged := carry_forward (snd parsed) (parse_pull_request_body unicode_alnum pr_body) in
    Ok (path,
        dict_set unreleased
                 (VDict (dict_set target_section
                                  (VList (fst parsed ++ generated_lines merged))
                                  entry))
                 changelog).
Proof.
  intros Hd Hu Ht. unfold udpate_changelog_from_pr_body.
  rewrite (get_changelog_present _ _ _ _ _ Hd)
    by (unfold dict_mem; now rewrite Hu).
  simpl. unfold parse_changelog. simpl. rewrite Hu; simpl. rewrite Ht; simpl.
  rewrite dict_get_set_same; simpl. now rewrite dict_set_twice.
Qed.

Lemma black_item_hook :
  changelog_hook unicode_alnum Sample.black_item
  = Some (Py.lit "black", Py.lit "22.1.0").
Proof. vm_compute. reflexivity. Qed.

Lemma boxed_line_scan :
  scan_lines unicode_alnum [Sample.boxed_line] false [] = [].
Proof. vm_compute. reflexivity. Qed.

Lemma label_line_scan :
  scan_lines unicode_alnum [Sample.label_line] false []
  = [(Py.lit "psf/black", Py.lit "23.0.0")].
Proof. vm_compute. reflexivity. Qed.

(** The end-to-end example, as amended for C3.  The unreleased entry has the
    repository section with the single line [- Update `black` hook to
    v22.1.0].  When the marked region of the pull request body is the line
    [- [ ] [psf/black.github.io/path: v22.1.0 → v23.0.0]], its label does not
    start with the reference and records nothing: the section becomes the
    single line [-   Update `black` hook to v22.1.0].  When it is the line
    [- [github.com/psf/black: v22.1.0 → v23.0.0]], the section becomes the
    single line [-   Update `psf/black` hook to v23.0.0], with no line for
    [black].  The rest of the changelog stays as read. *)
Theorem black_example path pr_body changelog entry :
  to_dict path true = Ok changelog ->
  dict_get unreleased changelog = Some (VDict entry) ->
  dict_get Sample.repository entry = Some (VList [Sample.black_item]) ->
  (region_of (Py.splitlines pr_body) [Sample.boxed_line] ->
   udpate_changelog_from_pr_body unicode_alnum to_dict to_sorted_semantic path pr_body Sample.repository
   = Ok (path,
         dict_set unreleased
                  (VDict (dict_set Sample.repository
                                   (VList [Sample.black_line]) entry))
                  changelog))
  /\ (region_of (Py.splitlines pr_body) [Sample.label_line] ->
      udpate_changelog_from_pr_body unicode_alnum to_dict to_sorted_semantic path pr_body Sample.repository
      = Ok (path,
            dict_set unreleased
                     (VDict (dict_set Sample.repository
                                      (VList [Sample.psf_black_line]) entry))
                     changelog)).
Proof.
  intros Hd Hu Hr.
  split; intros Hreg;
    rewrite (udpate_changelog_from_pr_body_section _ _ _ _ _ _ Hd Hu Hr);
    cbv zeta; rewrite (parse_pull_request_body_region _ _ _ Hreg);
    cbn [fold_left]; rewrite (parse_item_hook _ _ _ _ _ black_item_hook).
  - rewrite boxed_line_scan. reflexivity.
  - rewrite label_line_scan. reflexivity.
Qed.

(* ------------------------------------------------------------------ *)
(** ** The command line *)

(** [main] hands the literal ['repository'] to the update whatever
    [--target-section] holds: two command lines that differ in that option
    only have the same outcome. *)
Theorem main_ignores_target_section file pr_body target_section other :
  main unicode_alnum to_dict to_sorted_semantic file pr_body target_section = main unicode_alnum to_dict to_sorted_semantic file pr_body other.
Proof.
  unfold main, parse_args. destruct pr_body as [body|]; reflexivity.
Qed.

End UpdateFacts.

(* ------------------------------------------------------------------ *)
(** ** Concrete runs *)

Lemma boxed_body_region :
  region_of (Py.splitlines Sample.boxed_body) [Sample.boxed_line].
Proof.
  region_by (@nil str) pr_body_marker_start [pr_body_marker_end].
Qed.

Lemma label_body_region :
  region_of (Py.splitlines Sample.label_body) [Sample.label_line].
Proof.
  region_by (@nil str) pr_body_marker_start [pr_body_marker_end].
Qed.

Lemma noisy_body_region :
  region_of (Py.splitlines Sample.noisy_body)
            [Sample.updates_line; Sample.label_line].
Proof.
  region_by [Sample.foreign_line] pr_body_marker_start
            [pr_body_marker_end; Sample.foreign_line].
Qed.

Lemma plain_body_region :
  region_of (Py.splitlines Sample.plain_body)
            [Sample.updates_line; Sample.label_line].
Proof.
  region_by (@nil str) pr_body_marker_start [pr_body_marker_end].
Qed.

Lemma twice_body_region :
  region_of (Py.splitlines Sample.twice_body)
            ([Sample.label_line] ++ Sample.label_line_later :: []).
Proof.
  region_by (@nil str) pr_body_marker_start [pr_body_marker_end].
Qed.

(** Cleaning [1.2.3], [v1.2.3] and [V1.2.3]. *)
Lemma clean_version_str_witness :
  clean_version_str (Py.lit "1.2.3") = Py.lit "1.2.3"
  /\ clean_version_str (Py.lit "v1.2.3") = Py.lit "1.2.3"
  /\ clean_version_str (Py.lit "V1.2.3") = Py.lit "1.2.3"
  /\ clean_version_str (clean_version_str (Py.lit "1.2.3"))
     = clean_version_str (Py.lit "1.2.3").
Proof.
  destruct clean_version_str_spec as (Hclean & Hstrip & Hagain).
  assert (Hc : forall c t, Py.lit "1.2.3" = c :: t ->
                           c <> ch "v" /\ c <> ch "V")
    by (intros c t E; injection E as <- _; split; discriminate).
  split; [|split; [|split]].
  - exact (Hclean _ Hc).
  - exact (Hstrip (ch "v") (Py.lit "1.2.3") (or_introl eq_refl)).
  - exact (Hstrip (ch "V") (Py.lit "1.2.3") (or_intror eq_refl)).
  - exact (Hagain _ Hc).
Defined.

(** An empty changelog cannot be loaded. *)
Lemma get_changelog_no_history_witness :
  get_changelog (reads_as []) Semver.to_sorted_semantic Sample.path true
  = Error IndexError.
Proof.
  apply (get_changelog_no_history (reads_as []) Semver.to_sorted_semantic
                                  Sample.path true []).
  - reflexivity.
  - reflexivity.
  - constructor.
  - reflexivity.
Defined.

(** The entry made up for a changelog with the single release 1.0.0. *)
Lemma get_changelog_fixed_repository_witness :
  exists version_name : str,
    (unreleased, synthesized_entry (Py.lit "1.0.0")) :: Sample.one_release
    = (unreleased,
       VDict [(metadata,
               VDict [(Py.lit "release_data", VNone);
                      (Py.lit "url",
                       VStr (Py.lit "https://github.com/Takishima/flake8-secure-coding-standard/compare/"
                             ++ version_name ++ Py.lit "...HEAD"));
                      (version, VStr unreleased)])]) :: Sample.one_release.
Proof.
  apply (get_changelog_fixed_repository
           (reads_as Sample.one_release) Semver.to_sorted_semantic
           Sample.path true).
  - reflexivity.
  - reflexivity.
  - vm_compute. reflexivity.
Defined.

(** C4 (what the code does).  In a changelog that lists the release
    candidate 1.0.0-rc1 before the release 1.0.0 and has no unreleased
    entry, 1.0.0 is the highest version, and the compare link of the entry
    made up starts from 1.0.0-rc1: the first key that contains the text
    [1.0.0]. *)
Theorem get_changelog_candidate_first :
  (sorted <- Semver.to_sorted_semantic [Py.lit "1.0.0-rc1"; Py.lit "1.0.0"] ;;
   last <- last_item sorted ;; Ok (fst last)) = Ok (Py.lit "1.0.0")
  /\ get_changelog (reads_as Sample.candidate_first) Semver.to_sorted_semantic
                   Sample.path true
     = Ok ((unreleased, synthesized_entry (Py.lit "1.0.0-rc1"))
           :: Sample.candidate_first)
  /\ compare_url (Py.lit "1.0.0-rc1")
     = Py.lit "https://github.com/Takishima/flake8-secure-coding-standard/compare/1.0.0-rc1...HEAD".
Proof. repeat split; vm_compute; reflexivity. Qed.

(** Two bodies with the same marked region, one of them with update lines
    for another hook outside of it. *)
Lemma parse_pull_request_body_ignores_outside_witness :
  parse_pull_request_body no_table Sample.noisy_body
  = parse_pull_request_body no_table Sample.plain_body
  /\ parse_pull_request_body no_table Sample.noisy_body
     = [(Py.lit "psf/black", Py.lit "23.0.0")].
Proof.
  destruct (parse_pull_request_body_ignores_outside
              no_table Sample.noisy_body Sample.plain_body _
              noisy_body_region plain_body_region) as (Hsame & Hregion & _).
  split; [exact Hsame|]. rewrite Hregion. vm_compute. reflexivity.
Defined.

(** A section and a body that each record [black] twice. *)
Lemma last_recorded_version_wins_witness :
  (exists changelog' new_content hook_data,
      parse_changelog no_table Sample.twice_changelog Sample.repository
      = Ok (changelog', (new_content, hook_data))
      /\ dict_get (Py.lit "black") hook_data = Some (Py.lit "22.3.0")
      /\ NoDup (keys hook_data))
  /\ dict_get (Py.lit "psf/black")
              (parse_pull_request_body no_table Sample.twice_body)
     = Some (Py.lit "23.1.0")
  /\ NoDup (keys (parse_pull_request_body no_table Sample.twice_body)).
Proof.
  destruct (last_recorded_version_wins no_table) as [Hsection Hbody].
  split.
  - apply (Hsection Sample.twice_changelog Sample.repository
                    (snd (Sample.unreleased_with
                            [(Sample.repository,
                              VList [Sample.black_item; Sample.note_item;
                                     Sample.black_item_later])]))
                    (snd (Sample.unreleased_with
                            [(Sample.repository,
                              VList [Sample.black_item; Sample.note_item;
                                     Sample.black_item_later])]),
                     VList [Sample.black_item; Sample.note_item;
                            Sample.black_item_later])
                    [Sample.black_item; Sample.note_item]
                    Sample.black_item_later []).
    + reflexivity.
    + reflexivity.
    + reflexivity.
    + vm_compute. reflexivity.
    + intros y v' [].
  - apply (Hbody Sample.twice_body [Sample.label_line]
                 Sample.label_line_later []).
    + exact twice_body_region.
    + vm_compute. reflexivity.
    + intros y v' [].
Defined.

(** The changelog records [black], [fab], [ab] and [flake8]; the pull
    request updates [psf/black].  [black] is not carried, [flake8] is. *)
Lemma carry_forward_precedence_witness :
  dict_get (Py.lit "black") (carry_forward Sample.prior Sample.qualified)
  = dict_get (Py.lit "black") Sample.qualified
  /\ dict_get (Py.lit "flake8") (carry_forward Sample.prior Sample.qualified)
     = Some (Py.lit "6.0.0").
Proof.
  destruct carry_forward_precedence as [Hmatched Hcarried].
  split.
  - apply Hmatched.
    + simpl. auto.
    + reflexivity.
  - apply (Hcarried
             [(Py.lit "black", Py.lit "22.1.0"); (Py.lit "fab", Py.lit "1.0");
              (Py.lit "ab", Py.lit "2.0")]
             (Py.lit "flake8") (Py.lit "6.0.0") [] Sample.qualified).
    + reflexivity.
    + intros h' Hh'. simpl in Hh'.
      repeat (destruct Hh' as [<-|Hh']; [reflexivity|]). contradiction.
Defined.

(** C2 as stated fails.  With the changelog record [black], [fab], [ab],
    [flake8] and the pull request record [black]: [black] matches a name of
    the pull request record and is in the merged record all the same, with
    the pull request's version; [ab] matches no name of the pull request
    record and is not in the merged record, [fab] having been carried
    before it. *)
Lemma carry_forward_as_stated_fails :
  ~ (forall h v,
        dict_get h Sample.prior = Some v ->
        any_match h Sample.same_name = true ->
        dict_get h (carry_forward Sample.prior Sample.same_name) = None)
  /\ ~ (forall h v,
           dict_get h Sample.prior = Some v ->
           any_match h Sample.same_name = false ->
           dict_get h (carry_forward Sample.prior Sample.same_name) = Some v).
Proof.
  split; intros H.
  - specialize (H (Py.lit "black") (Py.lit "22.1.0") eq_refl eq_refl).
    vm_compute in H. discriminate.
  - specialize (H (Py.lit "ab") (Py.lit "2.0") eq_refl eq_refl).
    vm_compute in H. discriminate.
Qed.

(** Three hooks whose names differ beyond case. *)
Lemma generated_lines_ordered_witness :
  generated_lines Sample.three_hooks
  = [Py.lit "-   Update `asottile/pyupgrade` hook to v3.3.1";
     Py.lit "-   Update `psf/black` hook to v23.0.0";
     Py.lit "-   Update `PyCQA/flake8` hook to v6.0.0"]
  /\ Sorted key_lt (sorted_by_lower (keys Sample.three_hooks)).
Proof.
  destruct (generated_lines_ordered Sample.three_hooks)
    as (Hlines & _ & _ & Hstrict).
  split.
  - rewrite Hlines. vm_compute. reflexivity.
  - apply Hstrict. simpl.
    repeat (constructor;
            [simpl; intros Hin;
             repeat (destruct Hin as [Hin|Hin]; [discriminate Hin|]);
             contradiction|]).
    constructor.
Defined.

(** The pull request body can record two names that differ in case only. *)
Lemma case_variants_parsed (unicode_alnum : N -> bool) :
  parse_pull_request_body unicode_alnum Sample.case_body
  = Sample.case_variants.
Proof. vm_compute. reflexivity. Qed.

(** C5 as stated fails.  The merged record of an empty changelog record and
    the pull request record [PyCQA/flake8], [pycqa/flake8] gives two lines
    whose names have the same lowercase form: the first does not come
    strictly before the second. *)
Lemma generated_lines_not_strict :
  generated_lines (carry_forward [] Sample.case_variants)
  = [Py.lit "-   Update `PyCQA/flake8` hook to v6.0.0";
     Py.lit "-   Update `pycqa/flake8` hook to v6.1.0"]
  /\ ~ Sorted key_lt
       (sorted_by_lower (keys (carry_forward [] Sample.case_variants))).
Proof.
  split; [vm_compute; reflexivity|].
  intros H.
  change (sorted_by_lower (keys (carry_forward [] Sample.case_variants)))
    with [Py.lit "PyCQA/flake8"; Py.lit "pycqa/flake8"] in H.
  inversion H as [|a l _ Hhd]; subst.
  inversion Hhd as [|b l' Hlt]; subst.
  vm_compute in Hlt. discriminate.
Qed.

(** The end-to-end example run on a changelog and two bodies. *)
Lemma black_example_witness :
  udpate_changelog_from_pr_body
    no_table (reads_as Sample.black_changelog) Semver.to_sorted_semantic
    Sample.path Sample.boxed_body Sample.repository
  = Ok (Sample.path,
        [Sample.unreleased_with
           [(Sample.repository, VList [Sample.black_line])];
         Sample.release "1.0.0"])
  /\ udpate_changelog_from_pr_body
       no_table (reads_as Sample.black_changelog) Semver.to_sorted_semantic
       Sample.path Sample.label_body Sample.repository
     = Ok (Sample.path,
           [Sample.unreleased_with
              [(Sample.repository, VList [Sample.psf_black_line])];
            Sample.release "1.0.0"]).
Proof.
  assert (Hd : reads_as Sample.black_changelog Sample.path true
               = Ok Sample.black_changelog) by reflexivity.
  assert (Hu : dict_get unreleased Sample.black_changelog
               = Some (VDict (match snd (Sample.unreleased_with
                                           [(Sample.repository,
                                             VList [Sample.black_item])]) with
                              | VDict e => e
                              | _ => []
                              end))) by reflexivity.
  assert (Hr : dict_get Sample.repository
                        (match snd (Sample.unreleased_with
                                      [(Sample.repository,
                                        VList [Sample.black_item])]) with
                         | VDict e => e
                         | _ => []
                         end)
               = Some (VList [Sample.black_item])) by reflexivity.
  split.
  - rewrite (proj1 (black_example no_table _ Semver.to_sorted_semantic
                                  _ Sample.boxed_body _ _ Hd Hu Hr)
                   boxed_body_region).
    reflexivity.
  - rewrite (proj2 (black_example no_table _ Semver.to_sorted_semantic
                                  _ Sample.label_body _ _ Hd Hu Hr)
                   label_body_region).
    reflexivity.
Defined.

(** C3 as stated fails.  On the changelog and the body of the example, the
    repository section that is written is the single line for [black] at
    v22.1.0, and not the line for [psf/black] at v23.0.0. *)
Lemma black_example_as_stated_fails :
  Sample.written_section
    (udpate_changelog_from_pr_body
       no_table (reads_as Sample.black_changelog) Semver.to_sorted_semantic
       Sample.path Sample.boxed_body Sample.repository)
    Sample.repository
  = Some (VList [Sample.black_line])
  /\ Sample.written_section
       (udpate_changelog_from_pr_body
          no_table (reads_as Sample.black_changelog) Semver.to_sorted_semantic
          Sample.path Sample.boxed_body Sample.repository)
       Sample.repository
     <> Some (VList [Sample.psf_black_line]).
Proof.
  assert (E : Sample.written_section
                (udpate_changelog_from_pr_body
                   no_table (reads_as Sample.black_changelog)
                   Semver.to_sorted_semantic
                   Sample.path Sample.boxed_body Sample.repository)
                Sample.repository
              = Some (VList [Sample.black_line]))
    by (vm_compute; reflexivity).
  split; [exact E|]. rewrite E. vm_compute. discriminate.
Qed.

(** C1 (what the code does).  The command line names the section [added],
    which holds the line for [black]; the body updates [psf/black].  The
    run leaves [added] as it was and writes the generated line to a new
    section [repository]. *)
Theorem main_rewrites_repository_only :
  main no_table (reads_as Sample.added_changelog) Semver.to_sorted_semantic
       None (Some Sample.label_body) (Some (Py.lit "added"))
  = Ok (Sample.path,
        [Sample.unreleased_with
           [(Py.lit "added", VList [Sample.black_item]);
            (Sample.repository, VList [Sample.psf_black_line])];
         Sample.release "1.0.0"]).
Proof. vm_compute. reflexivity. Qed.

(** The second end-to-end example of the specification: the changelog
    records [foo-tool] at 1.2, the body updates [bar-tool] from 2.0 to 2.1;
    the section written holds the line for [bar-tool] and then the line for
    [foo-tool]. *)
Theorem foo_bar_example :
  Sample.written_section
    (udpate_changelog_from_pr_body
       no_table (reads_as Sample.foo_changelog) Semver.to_sorted_semantic
       Sample.path Sample.bar_body Sample.repository)
    Sample.repository
  = Some (VList [Py.lit "-   Update `bar-tool` hook to v2.1";
                 Py.lit "-   Update `foo-tool` hook to v1.2"]).
Proof. vm_compute. reflexivity. Qed.

(** Without [--pr-body] the argument parser ends the run, whatever the
    libraries and the other options are. *)
Theorem main_requires_pr_body
    (unicode_alnum : N -> bool)
    (to_dict : str -> bool -> result (dict value))
    (to_sorted_semantic : list str -> result (list (str * value)))
    (file target_section : option str) :
  main unicode_alnum to_dict to_sorted_semantic file None target_section
  = Error SystemExit.
Proof. reflexivity. Qed.

(* ------------------------------------------------------------------ *)
(** ** More on the merge *)

Lemma dict_set_new {V : Type} (k : str) (v : V) (d : dict V) :
  dict_get k d = None -> dict_set k v d = d ++ [(k, v)].
Proof.
  induction d as [|[k' v'] d IH]; simpl; [reflexivity|].
  destruct (Py.eqb k k'); [discriminate|].
  intros H. now rewrite IH.
Qed.

Lemma dict_set_same {V : Type} (k : str) (v : V) (d : dict V) :
  dict_get k d = Some v -> dict_set k v d = d.
Proof.
  induction d as [|[k' v'] d IH]; simpl; [discriminate|].
  destruct (eqb_spec k k') as [->|Hne].
  - now intros [= ->].
  - intros H. now rewrite IH.
Qed.

Lemma any_match_key h d : In h (keys d) -> any_match h d = true.
Proof.
  intros H. apply any_match_spec. exists h. split; [exact H|].
  apply contains_refl.
Qed.

Lemma any_match_carry_forward items d h :
  any_match h d = true -> any_match h (carry_forward items d) = true.
Proof.
  revert d; induction items as [|[h' v'] items IH]; intros d H; simpl;
    [exact H|].
  destruct (any_match h' d); apply IH; [exact H|].
  now apply any_match_dict_set.
Qed.

(** The merge keeps the pull request record as it is and puts entries of
    the changelog record behind it: the merged record starts with the pull
    request record, everything after it is an entry of the changelog record,
    and a name of the pull request record keeps the version it has there. *)
Theorem carry_forward_extends (hook_data new_hook_data : dict str) :
  exists carried,
    carry_forward hook_data new_hook_data = new_hook_data ++ carried
    /\ incl carried hook_data
    /\ forall h, In h (keys new_hook_data) ->
                 dict_get h (carry_forward hook_data new_hook_data)
                 = dict_get h new_hook_data.
Proof.
  assert (ext : forall P N, exists carried,
               carry_forward P N = N ++ carried /\ incl carried P).
  { induction P as [|[h v] P IH]; intros N; simpl.
    - exists []. split; [now rewrite app_nil_r | apply incl_refl].
    - destruct (any_match h N) eqn:E.
      + destruct (IH N) as (carried & -> & Hi).
        exists carried. split; [reflexivity | now apply incl_tl].
      + assert (Hn : dict_get h N = None).
        { apply dict_get_none. intros Hin.
          apply any_match_key in Hin. congruence. }
        rewrite (dict_set_new _ _ _ Hn).
        destruct (IH (N ++ [(h, v)])) as (carried & -> & Hi).
        exists ((h, v) :: carried). rewrite <- app_assoc. split; [reflexivity|].
        intros x [<-|Hx]; [now left | right; now apply Hi]. }
  destruct (ext hook_data new_hook_data) as (carried & E & Hi).
  exists carried. split; [exact E|]. split; [exact Hi|].
  intros h Hh. apply carry_forward_matched. now apply any_match_key.
Qed.

(** What the loop over the changelog record keeps true: the names of the
    merged record stay without repetition, and when it ends every name of
    the changelog record matches a name of the merged record (itself, if it
    was carried). *)
Theorem carry_forward_covers (hook_data new_hook_data : dict str) :
  (NoDup (keys new_hook_data) ->
   NoDup (keys (carry_forward hook_data new_hook_data)))
  /\ forall h, In h (keys hook_data) ->
               any_match h (carry_forward hook_data new_hook_data) = true.
Proof.
  split.
  - revert new_hook_data.
    induction hook_data as [|[h v] P IH]; intros N HN; simpl; [exact HN|].
    destruct (any_match h N); apply IH; [exact HN|].
    now apply NoDup_keys_dict_set.
  - revert new_hook_data.
    induction hook_data as [|[h v] P IH]; intros N x; simpl; [intros []|].
    intros [<-|Hx].
    + destruct (any_match h N) eqn:E.
      * now apply any_match_carry_forward.
      * apply any_match_carry_forward, any_match_self.
    + destruct (any_match h N); now apply IH.
Qed.

(* ------------------------------------------------------------------ *)
(** ** More on the pull request body *)

Section BodyFacts.

Variable unicode_alnum : N -> bool.

(** A body without a start marker line records nothing, whatever update
    lines it holds. *)
Theorem parse_pull_request_body_unmarked (pr_body : str) :
  (forall l, In l (Py.splitlines pr_body) ->
             Py.strip l <> pr_body_marker_start) ->
  parse_pull_request_body unicode_alnum pr_body = [].
Proof.
  intros H. unfold parse_pull_request_body.
  rewrite <- (app_nil_r (Py.splitlines pr_body)).
  now rewrite (scan_lines_skip _ _ [] [] H).
Qed.

End BodyFacts.

(* ------------------------------------------------------------------ *)
(** ** More on the loader and the update *)

Lemma contains_tl (s : str) : Py.contains (tl s) s = true.
Proof.
  destruct s as [|c s]; [reflexivity|].
  simpl tl. change (Py.contains s (c :: s))
    with (Py.startswith s (c :: s) || Py.contains s s)%bool.
  rewrite contains_refl. apply orb_true_r.
Qed.

(** The cleaned version is part of the version it was cleaned from. *)
Lemma contains_clean_version_str (s : str) :
  Py.contains (clean_version_str s) s = true.
Proof.
  unfold clean_version_str.
  destruct (Py.startswith (Py.lit "v") s || Py.startswith (Py.lit "V") s)%bool;
    [apply contains_tl | apply contains_refl].
Qed.

Lemma next_containing_found last_version versions :
  In last_version (List.map clean_version_str versions) ->
  exists version_name, next_containing last_version versions = Ok version_name.
Proof.
  induction versions as [|v versions IH]; simpl; [intros []|].
  destruct (Py.contains last_version v) eqn:E; [eauto|].
  intros [<-|H]; [|exact (IH H)].
  rewrite contains_clean_version_str in E. discriminate.
Qed.

Lemma versions_of_error changelog e :
  versions_of changelog = Error e -> e = KeyError \/ e = TypeError.
Proof.
  induction changelog as [|[k v] changelog IH]; simpl; [discriminate|].
  destruct v as [| | | |d]; simpl; try (intros [= <-]; now right).
  destruct (dict_get metadata d) as [m|]; simpl; [|intros [= <-]; now left].
  destruct m as [| | | |md]; simpl; try (intros [= <-]; now right).
  destruct (dict_get version md) as [x|]; simpl; [|intros [= <-]; now left].
  destruct (versions_of changelog) as [xs|e']; simpl; [discriminate|].
  intros [= <-]. now apply IH.
Qed.

Lemma version_texts_error values e :
  mapM version_text values = Error e -> e = AttributeError.
Proof.
  induction values as [|v values IH]; simpl; [discriminate|].
  destruct v; simpl; try (now intros [= <-]).
  destruct (mapM version_text values) as [xs|e']; simpl; [discriminate|].
  intros [= <-]. now apply IH.
Qed.

Lemma last_item_in {A : Type} (l : list A) (x : A) :
  last_item l = Ok x -> In x l.
Proof.
  unfold last_item. destruct (rev l) as [|y r] eqn:E; [discriminate|].
  intros [= ->]. apply in_rev. rewrite E. now left.
Qed.

Section MoreLoaderFacts.

Variable unicode_alnum : N -> bool.
Variable to_dict : str -> bool -> result (dict value).
Variable to_sorted_semantic : list str -> result (list (str * value)).

(** What [parse_changelog] returns when it returns: the unreleased entry is
    a dictionary; the lines read are those of the target section, or none
    when the entry has no such section, and then the entry gets an empty
    one at its end. *)
Lemma parse_changelog_ok changelog target_section changelog' r :
  parse_changelog unicode_alnum changelog target_section = Ok (changelog', r) ->
  exists entry entry1 items,
    dict_get unreleased changelog = Some (VDict entry)
    /\ changelog' = dict_set unreleased (VDict entry1) changelog
    /\ r = fold_left (parse_item unicode_alnum) items ([], [])
    /\ ((exists section, dict_get target_section entry = Some section
                         /\ iter section = Ok items /\ entry1 = entry)
        \/ (dict_get target_section entry = None /\ items = []
            /\ entry1 = entry ++ [(target_section, VList [])])).
Proof.
  unfold parse_changelog. intros H.
  apply bind_ok in H as (e & He & H).
  apply bind_ok in H as (sd & Hsd & H).
  apply bind_ok in H as (items & Hi & H).
  injection H as <- <-.
  simpl in He. destruct (dict_get unreleased changelog) as [x|] eqn:Hu;
    [|discriminate].
  injection He as ->.
  destruct e as [| | | |entry]; try discriminate. simpl in Hsd.
  destruct (dict_get target_section entry) as [section|] eqn:Ht;
    injection Hsd as <-; simpl in *.
  - exists entry, entry, items. repeat split. left. now exists section.
  - injection Hi as <-.
    exists entry, (entry ++ [(target_section, VList [])]), [].
    split; [reflexivity|]. split; [now rewrite (dict_set_new _ _ _ Ht)|].
    split; [reflexivity|]. right. now repeat split.
Qed.

(** [parse_changelog] changes the changelog only when the unreleased entry
    lacks the target section: then it gives the entry an empty section of
    that name, at its end, and finds no line and no hook; otherwise the
    changelog comes back as it was. *)
Theorem parse_changelog_side_effect changelog target_section changelog' r :
  parse_changelog unicode_alnum changelog target_section = Ok (changelog', r) ->
  exists entry,
    dict_get unreleased changelog = Some (VDict entry)
    /\ ((dict_get target_section entry <> None /\ changelog' = changelog)
        \/ (dict_get target_section entry = None
            /\ r = ([], [])
            /\ changelog'
               = dict_set unreleased
                          (VDict (entry ++ [(target_section, VList [])]))
                          changelog)).
Proof.
  intros H.
  apply parse_changelog_ok in H
    as (entry & entry1 & items & Hu & -> & -> & [(sec & Ht & _ & ->)|(Ht & -> & ->)]).
  - exists entry. split; [exact Hu|]. left. split; [congruence|].
    now apply dict_set_same.
  - exists entry. split; [exact Hu|]. right. now repeat split.
Qed.

(** The loader, when it returns, returns a changelog with an unreleased
    entry: the changelog as read, or that changelog behind the entry made
    up; so [parse_changelog] never fails on it for want of the key. *)
Theorem get_changelog_has_unreleased path flag changelog' :
  get_changelog to_dict to_sorted_semantic path flag = Ok changelog' ->
  dict_mem unreleased changelog' = true
  /\ (exists changelog,
         to_dict path flag = Ok changelog
         /\ (changelog' = changelog
             \/ (dict_mem unreleased changelog = false
                 /\ exists version_name,
                      changelog'
                      = (unreleased, synthesized_entry version_name)
                        :: changelog)))
  /\ forall target_section,
       parse_changelog unicode_alnum changelog' target_section
       <> Error KeyError.
Proof.
  intros H.
  assert (Hd : exists changelog, to_dict path flag = Ok changelog).
  { unfold get_changelog in H. apply bind_ok in H as (c & Hc & _). eauto. }
  destruct Hd as (changelog & Hd).
  assert (Hshape : changelog' = changelog
                   \/ (dict_mem unreleased changelog = false
                       /\ exists version_name,
                            changelog'
                            = (unreleased, synthesized_entry version_name)
                              :: changelog)).
  { destruct (dict_mem unreleased changelog) eqn:Hm.
    - left. rewrite (get_changelog_present _ _ _ _ _ Hd Hm) in H. congruence.
    - right. split; [reflexivity|].
      destruct (get_changelog_synthesized _ _ _ _ _ _ Hd Hm H)
        as (_ & _ & _ & _ & x & _ & _ & _ & _ & _ & ->).
      now exists x. }
  assert (Hmem : dict_mem unreleased changelog' = true).
  { destruct Hshape as [->|(_ & x & ->)].
    - destruct (dict_mem unreleased changelog) eqn:Hm; [reflexivity|].
      destruct (get_changelog_synthesized _ _ _ _ _ _ Hd Hm H)
        as (_ & _ & _ & _ & x & _ & _ & _ & _ & _ & E).
      rewrite E in Hm. discriminate Hm.
    - reflexivity. }
  split; [exact Hmem|]. split; [now exists changelog|].
  intros target_section. unfold parse_changelog, dict_mem in *. simpl.
  destruct (dict_get unreleased changelog') as [e|]; [|discriminate]. simpl.
  destruct e as [| | | |entry]; simpl; try discriminate.
  destruct (dict_get target_section entry) as [sec|]; simpl; [|discriminate].
  destruct sec; simpl; discriminate.
Qed.

(** The search for the name of the last version cannot come up empty: the
    cleaned text of a version is part of that version, so as long as the
    library hands back, as the last version, one of the cleaned versions it
    was given (and neither library call raises [StopIteration] itself), the
    loader does not end in [StopIteration]. *)
Theorem get_changelog_finds_version path flag :
  to_dict path flag <> Error StopIteration ->
  (forall versions, to_sorted_semantic versions <> Error StopIteration) ->
  (forall versions sorted last,
      to_sorted_semantic versions = Ok sorted ->
      last_item sorted = Ok last -> In (fst last) versions) ->
  get_changelog to_dict to_sorted_semantic path flag <> Error StopIteration.
Proof.
  intros Hd Hs Hin. unfold get_changelog.
  destruct (to_dict path flag) as [changelog|e]; simpl; [|congruence].
  destruct (dict_mem unreleased changelog); [discriminate|].
  destruct (versions_of changelog) as [values|e] eqn:Ev; simpl.
  2:{ apply versions_of_error in Ev as [->| ->]; discriminate. }
  destruct (mapM version_text values) as [versions|e] eqn:Et; simpl.
  2:{ apply version_texts_error in Et as ->. discriminate. }
  destruct (to_sorted_semantic (List.map clean_version_str versions))
    as [sorted|e] eqn:Es; simpl.
  2:{ intros [= ->]. exact (Hs _ Es). }
  destruct (last_item sorted) as [last|e] eqn:El; simpl.
  2:{ unfold last_item in El. destruct (rev sorted); [|discriminate].
      injection El as <-. discriminate. }
  destruct (next_containing_found _ _ (Hin _ _ _ Es El)) as (x & ->).
  discriminate.
Qed.

End MoreLoaderFacts.

Section MoreUpdateFacts.

Variable unicode_alnum : N -> bool.
Variable to_dict : str -> bool -> result (dict value).
Variable to_sorted_semantic : list str -> result (list (str * value)).

(** What a successful update leaves alone: the path it writes is the path
    it was given; the changelog written has the keys of the changelog
    loaded, in their order, and every entry but the unreleased one as
    loaded; the unreleased entry keeps every section but the target
    section, which is a list of lines. *)
Theorem udpate_changelog_frame path pr_body target_section written changelog' :
  udpate_changelog_from_pr_body unicode_alnum to_dict to_sorted_semantic
                                path pr_body target_section
  = Ok (written, changelog') ->
  written = path
  /\ exists changelog entry entry',
       get_changelog to_dict to_sorted_semantic path true = Ok changelog
       /\ keys changelog' = keys changelog
       /\ (forall k, k <> unreleased ->
                     dict_get k changelog' = dict_get k changelog)
       /\ dict_get unreleased changelog = Some (VDict entry)
       /\ dict_get unreleased changelog' = Some (VDict entry')
       /\ (forall section, section <> target_section ->
                           dict_get section entry' = dict_get section entry)
       /\ exists lines, dict_get target_section entry' = Some (VList lines).
Proof.
  unfold udpate_changelog_from_pr_body. intros H.
  apply bind_ok in H as (changelog & Hg & H).
  apply bind_ok in H as ([changelog1 r] & Hp & H).
  apply bind_ok in H as (e1 & He1 & H).
  apply bind_ok in H as (e2 & He2 & H).
  injection H as <- <-. split; [reflexivity|].
  apply parse_changelog_ok in Hp
    as (entry & entry1 & items & Hu & Hc1 & _ & Hentry1).
  simpl fst in *. subst changelog1.
  simpl in He1. rewrite dict_get_set_same in He1. injection He1 as <-.
  simpl in He2. injection He2 as <-.
  rewrite dict_set_twice.
  exists changelog, entry, (dict_set target_section
                              (VList (fst r ++ generated_lines
                                        (carry_forward (snd r)
                                           (parse_pull_request_body
                                              unicode_alnum pr_body))))
                              entry1).
  split; [exact Hg|]. split.
  { rewrite keys_dict_set. unfold dict_mem. now rewrite Hu. }
  split.
  { intros k Hk. now apply dict_get_set_other. }
  split; [exact Hu|]. split; [apply dict_get_set_same|]. split.
  - intros section Hs. rewrite dict_get_set_other by exact Hs.
    destruct Hentry1 as [(sec & _ & _ & ->)|(Ht & _ & ->)]; [reflexivity|].
    rewrite <- (dict_set_new _ (VList []) _ Ht).
    now apply dict_get_set_other.
  - eexists. apply dict_get_set_same.
Qed.

(** The first update of a changelog that has no unreleased entry: the
    changelog written is the changelog read behind a new unreleased entry,
    which holds the metadata the loader made up and the target section; the
    section holds the update lines of the pull request record and nothing
    else. *)
Theorem udpate_changelog_creates_unreleased
    path pr_body target_section changelog loaded :
  to_dict path true = Ok changelog ->
  dict_mem unreleased changelog = false ->
  get_changelog to_dict to_sorted_semantic path true = Ok loaded ->
  target_section <> metadata ->
  exists version_name,
    udpate_changelog_from_pr_body unicode_alnum to_dict to_sorted_semantic
                                  path pr_body target_section
    = Ok (path,
          (unreleased,
           VDict [(metadata,
                   VDict [(Py.lit "release_data", VNone);
                          (Py.lit "url", VStr (compare_url version_name));
                          (version, VStr unreleased)]);
                  (target_section,
                   VList (generated_lines
                            (parse_pull_request_body unicode_alnum pr_body)))])
          :: changelog).
Proof.
  intros Hd Hm Hg Ht.
  destruct (get_changelog_synthesized _ _ _ _ _ _ Hd Hm Hg)
    as (_ & _ & _ & _ & version_name & _ & _ & _ & _ & _ & ->).
  exists version_name.
  unfold udpate_changelog_from_pr_body. rewrite Hg.
  unfold parse_changelog, synthesized_entry.
  repeat first
    [ rewrite eqb_refl
    | rewrite (eqb_false _ _ Ht)
    | progress cbn [bind getitem setitem setdefault dict_get dict_set iter
                    fst snd fold_left carry_forward app] ].
  reflexivity.
Qed.

End MoreUpdateFacts.

(* ------------------------------------------------------------------ *)
(** ** The versions the patterns capture *)

Section VersionFacts.

Variable unicode_alnum : N -> bool.

Lemma rounds_dotted n :
  forall q gs q' gs',
    rounds (matches unicode_alnum (Seq (Chr (ch ".")) (plus digit)))
           n q gs q' gs' ->
    exists ds,
      rest q = List.concat (List.map (cons (ch ".")) ds) ++ rest q'
      /\ List.length ds = n
      /\ Forall (fun x => x <> [] /\ Forall (fun c => digit_char c = true) x)
                ds.
Proof.
  induction n as [|n IH]; intros q gs q' gs' H; inversion H; subst.
  - exists []. split; [reflexivity|]. split; [reflexivity | constructor].
  - match goal with
    | Ha : matches _ _ q gs ?q1 ?gs1, Hr : rounds _ n ?q1 ?gs1 q' gs' |- _ =>
        destruct Ha as (qa & gsa & (c & t & Eq & Hc & -> & ->)
                        & (m & Hm & _ & Hd));
        apply rounds_takes in Hd as (d & Ed & Hdig & Hlen);
        apply IH in Hr as (ds & Eds & Hl & Hds)
    end.
    apply N.eqb_eq in Hc. subst c. simpl in Ed.
    exists (d :: ds). simpl. rewrite Eq, Ed, Eds, <- app_assoc.
    split; [reflexivity|]. split; [now rewrite Hl|].
    constructor; [|exact Hds]. split; [|exact Hdig].
    destruct d; [simpl in Hlen; lia | discriminate].
Qed.

(** A match of [_version_regex] sets its group to a dotted number. *)
Lemma matches_version g q gs q' gs' :
  matches unicode_alnum (_version_regex g) q gs q' gs' ->
  exists v, group g gs' = Some v /\ dotted_number v.
Proof.
  unfold _version_regex. cbn [seq].
  intros (q1 & gs1 & _ & gs2 & (q2 & gs3 & (n & Hn & _ & Hd)
                                & (m & _ & Hm & Hr)) & ->).
  apply rounds_takes in Hd as (d & Ed & Hdig & Hlen).
  apply rounds_dotted in Hr as (ds & Eds & Hl & Hds).
  exists (d ++ List.concat (List.map (cons (ch ".")) ds)).
  rewrite group_set_group_same. split.
  - f_equal. apply consumed_prefix. now rewrite Ed, Eds, app_assoc.
  - exists d, ds. split; [reflexivity|]. split.
    + destruct d; [simpl in Hlen; lia | discriminate].
    + split; [exact Hdig|]. split; [|exact Hds].
      rewrite Hl. now apply Hm.
Qed.

Lemma changelog_hook_version item h v :
  changelog_hook unicode_alnum item = Some (h, v) -> dotted_number v.
Proof.
  unfold changelog_hook.
  destruct (re_match unicode_alnum changelog_item_regex item) as [m|] eqn:E;
    [|discriminate].
  intros [= _ <-]. apply re_match_sound in E as (q' & H).
  unfold changelog_item_regex in H. cbn [seq] in H.
  destruct H as (q1 & gs1 & _ & q2 & gs2 & _ & q3 & gs3 & _ & q4 & gs4 & _
                 & q5 & gs5 & _ & q6 & gs6 & _ & Hv).
  apply matches_version in Hv as (v & Hg & Hv).
  unfold group_text. now rewrite Hg.
Qed.

Lemma parse_line_version line h v :
  parse_line unicode_alnum line = Some (h, v) -> dotted_number v.
Proof.
  unfold parse_line.
  destruct (re_match unicode_alnum hook_line_regex (Py.strip line))
    as [hook_line|]; [|discriminate].
  destruct (re_match unicode_alnum hook_label_regex (group_text 1 hook_line))
    as [m|] eqn:E; [|discriminate].
  intros [= _ <-]. apply re_match_sound in E as (q' & H).
  unfold hook_label_regex in H. cbn [seq] in H.
  destruct H as (q1 & gs1 & _ & q2 & gs2 & _ & q3 & gs3 & _ & q4 & gs4 & _
                 & q5 & gs5 & _ & q6 & gs6 & _ & q7 & gs7 & _ & q8 & gs8 & _
                 & Hv).
  apply matches_version in Hv as (v & Hg & Hv).
  unfold group_text. now rewrite Hg.
Qed.

End VersionFacts.

(* ------------------------------------------------------------------ *)
(** ** The shape of the generated lines *)

Lemma in_dict_set {V : Type} (k : str) (v : V) (d : dict V) (x : str * V) :
  In x (dict_set k v d) -> x = (k, v) \/ In x d.
Proof.
  induction d as [|[k' v'] d IH]; simpl.
  - intros [<-|[]]. now left.
  - destruct (Py.eqb k k'); simpl.
    + intros [<-|H]; auto.
    + intros [<-|H]; [auto|]. apply IH in H as [H|H]; auto.
Qed.

Lemma dict_get_entry {V : Type} (k : str) (v : V) (d : dict V) :
  dict_get k d = Some v -> In (k, v) d.
Proof.
  induction d as [|[k' v'] d IH]; simpl; [discriminate|].
  destruct (eqb_spec k k') as [->|Hne].
  - intros [= ->]. now left.
  - intros H. right. now apply IH.
Qed.

Lemma carry_forward_entries items d x :
  In x (carry_forward items d) -> In x d \/ In x items.
Proof.
  revert d; induction items as [|[h v] items IH]; intros d; simpl; [now left|].
  destruct (any_match h d); intros H; apply IH in H as [H|H]; auto.
  apply in_dict_set in H as [->|H]; auto.
Qed.

Section ShapeFacts.

Variable unicode_alnum : N -> bool.

Lemma scan_lines_entries lines skip d h v :
  In (h, v) (scan_lines unicode_alnum lines skip d) ->
  In (h, v) d
  \/ exists l, In l lines /\ parse_line unicode_alnum l = Some (h, v).
Proof.
  revert skip d; induction lines as [|l lines IH]; intros skip d; simpl;
    [now left|].
  assert (later : forall skip' d',
             In (h, v) (scan_lines unicode_alnum lines skip' d') ->
             In (h, v) d'
             \/ exists l0, (l = l0 \/ In l0 lines)
                           /\ parse_line unicode_alnum l0 = Some (h, v)).
  { intros skip' d' H. apply IH in H as [H|(l0 & Hin & Hl)]; [now left|].
    right. exists l0. auto. }
  destruct (Py.eqb (Py.strip l) pr_body_marker_start); [apply later|].
  destruct skip; [apply later|].
  destruct (Py.eqb (Py.strip l) pr_body_marker_end); [now left|].
  destruct (parse_line unicode_alnum l) as [[h' v']|] eqn:Hl; [|apply later].
  intros H. apply later in H as [H|H]; [|now right].
  apply in_dict_set in H as [[= -> ->]|H]; [|now left].
  right. exists l. auto.
Qed.

Lemma parse_items_entries items acc h v :
  In (h, v) (snd (fold_left (parse_item unicode_alnum) items acc)) ->
  In (h, v) (snd acc)
  \/ exists item,
       In item items /\ changelog_hook unicode_alnum item = Some (h, v).
Proof.
  revert acc; induction items as [|x items IH]; intros acc; simpl;
    [now left|].
  intros H. apply IH in H as [H|(item & Hin & Hi)];
    [|right; exists item; auto].
  destruct (changelog_hook unicode_alnum x) as [[h' v']|] eqn:Hx.
  - rewrite (parse_item_hook _ _ _ _ _ Hx) in H; simpl in H.
    apply in_dict_set in H as [[= -> ->]|H]; [|now left].
    right. exists x. auto.
  - rewrite (parse_item_other _ _ _ Hx) in H. now left.
Qed.

(** Every line the update generates, whatever the section and the body, is
    [-   Update `name` hook to vN] with [N] a dotted number: one to three
    runs of digits with dots between them, without the [v] the sources may
    carry. *)
Theorem generated_lines_shape (items : list str) (pr_body : str) :
  Forall (fun line =>
            exists name number,
              line = Py.lit "-   Update `" ++ name ++ Py.lit "` hook to v"
                     ++ number
              /\ dotted_number number)
         (generated_lines
            (carry_forward
               (snd (fold_left (parse_item unicode_alnum) items ([], [])))
               (parse_pull_request_body unicode_alnum pr_body))).
Proof.
  set (merged := carry_forward _ _).
  apply Forall_forall. intros line Hline.
  apply in_map_iff in Hline as (name & <- & Hname).
  apply (Permutation_in _ (sorted_from_Permutation _ [])) in Hname.
  simpl in Hname. unfold update_line.
  destruct (dict_get name merged) as [number|] eqn:Hget.
  - exists name, number. split; [reflexivity|].
    apply dict_get_entry, carry_forward_entries in Hget as [H|H].
    + apply scan_lines_entries in H as [[]|(l & _ & Hl)].
      exact (parse_line_version _ _ _ _ Hl).
    + apply parse_items_entries in H as [[]|(item & _ & Hi)].
      exact (changelog_hook_version _ _ _ _ Hi).
  - apply dict_get_none in Hget. contradiction.
Qed.

End ShapeFacts.

(* ------------------------------------------------------------------ *)
(** ** Reading a generated line back *)

Section ReadBackFacts.

Variable unicode_alnum : N -> bool.

(** A greedy repetition of a one-character pattern over a run of such
    characters that ends where the pattern fails: it takes the whole run. *)
Lemma iterate_eat_run (p : N -> bool) (step : cont -> cont) (k : cont)
    (gs res : groups) (t : str) :
  (forall k q gs, step k q gs = eat p k q gs) ->
  (forall b, k (Pos b t) gs = Some res) ->
  match t with [] => True | c :: _ => p c = false end ->
  forall s lo n b,
    Forall (fun c => p c = true) s ->
    lo <= List.length s -> List.length s <= n ->
    iterate step lo n k (Pos b (s ++ t)) gs = Some res.
Proof.
  intros Hstep Hk Ht.
  induction s as [|c s IH]; intros lo n b Hs Hlo Hn; simpl in Hlo, Hn.
  - assert (lo = 0) as -> by lia. simpl app.
    destruct n as [|n]; simpl; [apply Hk|].
    rewrite Hstep. unfold eat; simpl.
    destruct t as [|c t]; [apply Hk|]. rewrite Ht. apply Hk.
  - destruct n as [|n]; [lia|]. inversion Hs as [|? ? Hc Hs']; subst.
    simpl. destruct lo as [|lo]; rewrite Hstep; unfold eat; simpl; rewrite Hc.
    + rewrite IH; [reflexivity | exact Hs' | lia | lia].
    + apply IH; [exact Hs' | lia | lia].
Qed.

Lemma run_seq_cons slack (r : regex) (rs : list regex) (k : cont) q gs :
  run_slack unicode_alnum slack (seq (r :: rs)) k q gs
  = run_slack unicode_alnum slack r
              (run_slack unicode_alnum slack (seq rs) k) q gs.
Proof. destruct rs; reflexivity. Qed.

Lemma run_Seq slack (a b : regex) (k : cont) q gs res :
  run_slack unicode_alnum slack a (run_slack unicode_alnum slack b k) q gs
  = Some res ->
  run_slack unicode_alnum slack (Seq a b) k q gs = Some res.
Proof. exact (fun H => H). Qed.

Lemma run_Grp slack (i : nat) (a : regex) (k : cont) q gs res :
  run_slack unicode_alnum slack a
            (fun q' gs' => k q' (set_group i (consumed q q') gs')) q gs
  = Some res ->
  run_slack unicode_alnum slack (Grp i a) k q gs = Some res.
Proof. exact (fun H => H). Qed.

Lemma run_Chr slack (c : N) (k : cont) (gs res : groups) (t : str) :
  (forall b, k (Pos b t) gs = Some res) ->
  forall b,
    run_slack unicode_alnum slack (Chr c) k (Pos b (c :: t)) gs = Some res.
Proof.
  intros Hk b. cbn [run_slack]. unfold eat. cbn [rest].
  rewrite N.eqb_refl. apply Hk.
Qed.

(** The greedy choice of [a?] and of the first round of [a{0,n}]. *)
Lemma iterate_first (step : cont -> cont) (n : nat) (k : cont) q gs res :
  step (iterate step 0 n k) q gs = Some res ->
  iterate step 0 (S n) k q gs = Some res.
Proof. simpl. now intros ->. Qed.

Lemma run_opt slack (a : regex) (k : cont) q gs res :
  run_slack unicode_alnum slack a k q gs = Some res ->
  run_slack unicode_alnum slack (opt a) k q gs = Some res.
Proof. intros H. apply iterate_first. exact H. Qed.

(** A literal is matched by the text it spells. *)
Lemma run_text slack (cs : str) (k : cont) (gs res : groups) (t : str) :
  (forall b, k (Pos b t) gs = Some res) ->
  forall b,
    run_slack unicode_alnum slack (seq (List.map Chr cs)) k (Pos b (cs ++ t)) gs
    = Some res.
Proof.
  intros Hk. induction cs as [|c cs IH]; intros b.
  - apply Hk.
  - cbn [List.map]. rewrite run_seq_cons. apply (run_Chr slack c). exact IH.
Qed.

(** The unbounded repetition of a class over a run of the class. *)
Lemma run_class_run slack (a : regex) (p : N -> bool) (lo : nat) (k : cont)
    (gs res : groups) (s t : str) :
  (forall k q gs, run_slack unicode_alnum slack a k q gs = eat p k q gs) ->
  (forall b, k (Pos b t) gs = Some res) ->
  match t with [] => True | c :: _ => p c = false end ->
  Forall (fun c => p c = true) s ->
  lo <= List.length s ->
  forall b,
    run_slack unicode_alnum slack (Rep a lo None) k (Pos b (s ++ t)) gs
    = Some res.
Proof.
  intros Ha Hk Ht Hs Hlo b. cbn [run_slack rest].
  apply (iterate_eat_run p); try assumption.
  rewrite length_app. lia.
Qed.

(** At most [n] groups of a dot and digits, at the end of the subject. *)
Lemma run_dotted slack (k : cont) (gs res : groups) :
  (forall b, k (Pos b []) gs = Some res) ->
  forall ds n b,
    List.length ds <= n ->
    Forall (fun x => x <> [] /\ Forall (fun c => digit_char c = true) x) ds ->
    iterate (run_slack unicode_alnum slack (Seq (Chr (ch ".")) (plus digit)))
            0 n k (Pos b (List.concat (List.map (cons (ch ".")) ds))) gs
    = Some res.
Proof.
  intros Hk. induction ds as [|d ds IH]; intros n b Hn Hds.
  - destruct n as [|n]; simpl; apply Hk.
  - destruct n as [|n]; [simpl in Hn; lia|].
    inversion Hds as [|? ? [Hne Hd] Hds']; subst.
    cbn [List.map List.concat app].
    apply iterate_first, run_Seq, run_Chr. intros b'.
    apply (run_class_run slack digit digit_char 1); try assumption.
    + reflexivity.
    + intros b''. apply IH; [simpl in Hn; lia | exact Hds'].
    + destruct ds; simpl; [exact I | reflexivity].
    + destruct d; [congruence | simpl; lia].
Qed.

(** [_version_regex] on [v] and a dotted number, at the end of the
    subject: the group is the number. *)
Lemma run_version slack (g : nat) (k : cont) (gs res : groups) (v : str) :
  dotted_number v ->
  (forall b, k (Pos b []) (set_group g v gs) = Some res) ->
  forall b,
    run_slack unicode_alnum slack (_version_regex g) k (Pos b (ch "v" :: v)) gs
    = Some res.
Proof.
  intros (d & ds & -> & Hne & Hd & Hlen & Hds) Hk b.
  unfold _version_regex. cbn [seq].
  apply run_Seq, run_opt, run_Chr. intros b'. apply run_Grp, run_Seq.
  apply (run_class_run slack digit digit_char 1); try assumption.
  - reflexivity.
  - intros b''. apply (run_dotted slack); [|exact Hlen | exact Hds].
    intros b3. rewrite (consumed_prefix _ _ (d ++ List.concat (List.map (cons (ch ".")) ds)));
      [apply Hk|].
    simpl. now rewrite app_nil_r.
  - destruct ds; simpl; [exact I | reflexivity].
  - destruct d; [congruence | simpl; lia].
Qed.

(** The line generated for a name of the changelog pattern's class with a
    dotted number as its version is read back by [parse_changelog] as that
    name and that version. *)
Lemma update_line_read_back (new_hook_data : dict str) (name number : str) :
  dict_get name new_hook_data = Some number ->
  name <> [] ->
  Forall (fun c => hook_name_char c = true) name ->
  dotted_number number ->
  changelog_hook unicode_alnum (update_line new_hook_data name)
  = Some (name, number).
Proof.
  intros Hget Hne Hname Hnumber.
  unfold update_line, changelog_hook. rewrite Hget.
  replace (re_match unicode_alnum changelog_item_regex
             (Py.lit "-   Update `" ++ name ++ Py.lit "` hook to v" ++ number))
    with (Some [(1, name); (2, number)]); [reflexivity|].
  symmetry. unfold re_match, run, changelog_item_regex. cbn [seq].
  change (Py.lit "-   Update `" ++ name ++ Py.lit "` hook to v" ++ number)
    with (ch "-"
          :: (Py.lit "   "
              ++ (Py.lit "Update `"
                  ++ (name
                      ++ (ch "`"
                          :: (Py.lit " hook"
                              ++ (Py.lit " to " ++ (ch "v" :: number)))))))).
  apply run_Seq, run_Seq, run_Chr. intros b1.
  apply (run_class_run 0 Space Py.isspace 1).
  - reflexivity.
  - intros b2. apply run_Seq, run_text. intros b3. apply run_Seq, run_Grp.
    apply (run_class_run 0 _ hook_name_char 1).
    + reflexivity.
    + intros b4. rewrite (consumed_prefix _ _ name) by reflexivity.
      apply run_Seq, run_Chr. intros b5.
      apply run_Seq, run_opt, run_text. intros b6.
      apply run_Seq, run_text. intros b7.
      apply run_version; [exact Hnumber|]. reflexivity.
    + reflexivity.
    + exact Hname.
    + destruct name; [congruence | simpl; lia].
  - reflexivity.
  - repeat constructor.
  - simpl. lia.
Qed.

Lemma dict_get_fold_set {V : Type} (val : str -> V) (names : list str)
    (d : dict V) (k : str) :
  (In k names ->
   dict_get k (fold_left (fun a x => dict_set x (val x) a) names d)
   = Some (val k))
  /\ (~ In k names ->
      dict_get k (fold_left (fun a x => dict_set x (val x) a) names d)
      = dict_get k d).
Proof.
  revert d; induction names as [|x names IH]; intros d; simpl.
  - split; [intros [] | reflexivity].
  - destruct (IH (dict_set x (val x) d)) as [Hin Hout].
    destruct (in_dec (list_eq_dec N.eq_dec) k names) as [Hk|Hk].
    + split; [intros _; now apply Hin | intros H; exfalso; apply H; auto].
    + rewrite (Hout Hk). split.
      * intros [->|H]; [apply dict_get_set_same | contradiction].
      * intros H. apply dict_get_set_other. intros ->. apply H. now left.
Qed.

Lemma update_lines_read_back (new_hook_data : dict str) (names : list str)
    (acc : list str * dict str) :
  (forall name, In name names ->
     exists number,
       dict_get name new_hook_data = Some number
       /\ name <> [] /\ Forall (fun c => hook_name_char c = true) name
       /\ dotted_number number) ->
  fold_left (parse_item unicode_alnum)
            (List.map (update_line new_hook_data) names) acc
  = (fst acc,
     fold_left (fun a x =>
                  dict_set x (match dict_get x new_hook_data with
                              | Some v => v
                              | None => []
                              end) a)
               names (snd acc)).
Proof.
  revert acc; induction names as [|x names IH]; intros acc H; simpl.
  - now destruct acc.
  - destruct (H x (or_introl eq_refl)) as (number & Hget & Hne & Hx & Hn).
    rewrite (parse_item_hook _ _ _ _ _
               (update_line_read_back _ _ _ Hget Hne Hx Hn)).
    rewrite IH by (intros name Hin; apply H; now right).
    simpl. now rewrite Hget.
Qed.

(** [parse_changelog] reads back a section the update wrote: when the
    target section is the list of lines generated from a record whose names
    are words of the changelog pattern's class and whose versions are dotted
    numbers, it finds no other line, leaves the changelog as it is, and
    returns a record with the same version under every name. *)
Theorem parse_changelog_reads_back
    (changelog : dict value) (target_section : str) (entry : dict value)
    (new_hook_data : dict str) :
  dict_get unreleased changelog = Some (VDict entry) ->
  dict_get target_section entry
  = Some (VList (generated_lines new_hook_data)) ->
  (forall name number,
     dict_get name new_hook_data = Some number ->
     name <> [] /\ Forall (fun c => hook_name_char c = true) name
     /\ dotted_number number) ->
  exists hook_data,
    parse_changelog unicode_alnum changelog target_section
    = Ok (changelog, ([], hook_data))
    /\ forall name, dict_get name hook_data = dict_get name new_hook_data.
Proof.
  intros Hu Ht Hgood.
  set (val := fun x => match dict_get x new_hook_data with
                       | Some v => v
                       | None => []
                       end).
  exists (fold_left (fun a x => dict_set x (val x) a)
                    (sorted_by_lower (keys new_hook_data)) []).
  split.
  - unfold parse_changelog. cbn [getitem bind]. rewrite Hu.
    cbn [setdefault bind]. rewrite Ht. cbn [iter bind fst snd].
    rewrite (dict_set_same _ _ _ Hu). unfold generated_lines.
    rewrite update_lines_read_back; [reflexivity|].
    intros name Hin.
    apply (Permutation_in _ (sorted_from_Permutation _ [])) in Hin.
    simpl in Hin. apply dict_get_in in Hin.
    destruct (dict_get name new_hook_data) as [number|] eqn:Hget;
      [|congruence].
    exists number. split; [reflexivity|]. now apply Hgood.
  - intros name.
    destruct (dict_get_fold_set val (sorted_by_lower (keys new_hook_data))
                                [] name) as [Hin Hout].
    destruct (dict_get name new_hook_data) as [number|] eqn:Hget.
    + rewrite Hin; [unfold val; now rewrite Hget|].
      apply (Permutation_in _
               (Permutation_sym (sorted_from_Permutation _ []))).
      simpl. apply dict_get_in. congruence.
    + rewrite Hout; [reflexivity|]. intros H.
      apply (Permutation_in _ (sorted_from_Permutation _ [])) in H.
      simpl in H. apply dict_get_in in H. contradiction.
Qed.

Lemma matches_text (cs : str) :
  forall q gs q' gs',
    matches unicode_alnum (seq (List.map Chr cs)) q gs q' gs' ->
    rest q = cs ++ rest q'.
Proof.
  induction cs as [|c cs IH]; intros q gs q' gs'.
  - simpl. now intros [-> _].
  - destruct cs as [|c' cs].
    + simpl. intros (x & t & E & Hx & -> & _).
      apply N.eqb_eq in Hx. now subst x.
    + change (seq (List.map Chr (c :: c' :: cs)))
        with (Seq (Chr c) (seq (List.map Chr (c' :: cs)))).
      intros (q1 & gs1 & (x & t & E & Hx & -> & _) & H).
      apply N.eqb_eq in Hx. subst x. apply IH in H. simpl in H.
      rewrite E, H. reflexivity.
Qed.

(** A run of characters of a class, up to the first character outside it,
    is determined by the text. *)
Lemma run_end_unique (p : N -> bool) (s1 s2 r1 r2 : str) (c1 c2 : N) :
  s1 ++ c1 :: r1 = s2 ++ c2 :: r2 ->
  Forall (fun c => p c = true) s1 -> Forall (fun c => p c = true) s2 ->
  p c1 = false -> p c2 = false ->
  s1 = s2 /\ c1 = c2 /\ r1 = r2.
Proof.
  intros E H1 H2 Hc1 Hc2. revert s2 E H2.
  induction H1 as [|x s1 Hx H1 IH]; intros [|y s2] E H2; simpl in E.
  - injection E as -> ->. auto.
  - injection E as -> _. inversion H2; congruence.
  - injection E as -> _. congruence.
  - injection E as -> E. inversion H2 as [|? ? _ H2']; subst.
    destruct (IH _ E H2') as (-> & -> & ->). auto.
Qed.

(** The line generated for a name with a character outside the changelog
    pattern's class (the first such not being a backquote) is not read back
    as a hook line: [parse_changelog] keeps it among the other lines and
    records nothing for it. *)
Theorem odd_name_not_read_back (new_hook_data : dict str)
    (name pre post : str) (c : N) (acc : list str * dict str) :
  name = pre ++ c :: post ->
  Forall (fun x => hook_name_char x = true) pre ->
  hook_name_char c = false ->
  c <> ch "`" ->
  parse_item unicode_alnum acc (update_line new_hook_data name)
  = (fst acc ++ [update_line new_hook_data name], snd acc).
Proof.
  intros -> Hpre Hc Hquote.
  assert (Hnone : changelog_hook unicode_alnum
                    (update_line new_hook_data (pre ++ c :: post)) = None).
  { unfold changelog_hook.
    destruct (re_match unicode_alnum changelog_item_regex
                (update_line new_hook_data (pre ++ c :: post)))
      as [m|] eqn:Em; [exfalso | reflexivity].
    apply re_match_sound in Em as (q' & H).
    unfold changelog_item_regex in H. cbn [seq] in H.
    destruct H as (q1 & gs1
                   & (qa & gsa & (x & t & E0 & _ & -> & _)
                      & (n & _ & _ & Hsp))
                   & q2 & gs2 & Htext
                   & q3 & gs3 & (gsg & (n' & _ & _ & Hname) & _)
                   & q4 & gs4 & (y & t' & E4 & Hy & _) & _).
    apply matches_text in Htext.
    apply rounds_takes in Hsp as (sp & Esp & Hspaces & _).
    apply rounds_takes in Hname as (s & Es & Hs & _).
    apply N.eqb_eq in Hy. subst y.
    unfold update_line in E0.
    set (tail := Py.lit "` hook to v" ++ _) in E0.
    cbn [rest] in E0, Esp.
    change (Py.lit "-   Update `" ++ (pre ++ c :: post) ++ tail)
      with (ch "-" :: Py.lit "   " ++ Py.lit "Update `"
                   ++ (pre ++ c :: post) ++ tail) in E0.
    injection E0 as _ <-.
    rewrite Htext, Es, E4 in Esp.
    destruct (run_end_unique Py.isspace (Py.lit "   ") sp
                (Py.lit "pdate `" ++ (pre ++ c :: post) ++ tail)
                (Py.lit "pdate `" ++ s ++ ch "`" :: t')
                (ch "U") (ch "U") Esp) as (_ & _ & E);
      [repeat constructor | exact Hspaces | reflexivity | reflexivity |].
    apply app_inv_head in E. rewrite <- app_assoc in E.
    destruct (run_end_unique hook_name_char pre s (post ++ tail) t'
                c (ch "`") E Hpre Hs Hc eq_refl) as (_ & Hcq & _).
    contradiction. }
  destruct acc as [new_content hook_data]. unfold parse_item.
  rewrite Hnone. unfold update_line. reflexivity.
Qed.

End ReadBackFacts.

(* ------------------------------------------------------------------ *)
(** ** More concrete runs *)

Lemma mapM_error {A B : Type} (f : A -> result B) (P : exn -> Prop) :
  (forall a e, f a = Error e -> P e) ->
  forall l e, mapM f l = Error e -> P e.
Proof.
  intros Hf. induction l as [|a l IH]; intros e; simpl; [discriminate|].
  destruct (f a) as [b|e'] eqn:Ea; simpl.
  - destruct (mapM f l) as [bs|e'']; simpl; [discriminate|].
    intros [= <-]. now apply IH.
  - intros [= <-]. exact (Hf _ _ Ea).
Qed.

Lemma mapM_in {A B : Type} (f : A -> result B) :
  forall l bs b,
    mapM f l = Ok bs -> In b bs -> exists a, In a l /\ f a = Ok b.
Proof.
  induction l as [|a l IH]; intros bs b; simpl.
  - intros [= <-] [].
  - destruct (f a) as [b'|] eqn:Ea; simpl; [|discriminate].
    destruct (mapM f l) as [bs'|] eqn:El; simpl; [|discriminate].
    intros [= <-] [<-|Hin].
    + exists a. auto.
    + destruct (IH _ _ eq_refl Hin) as (a' & Ha' & Hf). exists a'. auto.
Qed.

Lemma to_semantic_error (s : str) (e : exn) :
  Semver.to_semantic s = Error e -> e = InvalidSemanticVersion.
Proof.
  unfold Semver.to_semantic.
  repeat match goal with
         | |- context [match ?x with _ => _ end] => destruct x
         end; congruence.
Qed.

Lemma semver_insert_in (x y : str * Semver.t) (l : list (str * Semver.t)) :
  In y (Semver.insert x l) -> y = x \/ In y l.
Proof.
  induction l as [|z l IH]; simpl.
  - intros [<-|[]]. now left.
  - destruct (Semver.ltb (snd x) (snd z)); simpl.
    + intros [<-|H]; auto.
    + intros [<-|H]; [auto|]. apply IH in H as [H|H]; auto.
Qed.

Lemma semver_sorted_in (y : str * Semver.t) (l acc : list (str * Semver.t)) :
  In y (fold_left (fun acc x => Semver.insert x acc) l acc) ->
  In y acc \/ In y l.
Proof.
  revert acc; induction l as [|x l IH]; intros acc; simpl; [now left|].
  intros H. apply IH in H as [H|H]; [|auto].
  apply semver_insert_in in H as [->|H]; auto.
Qed.

(** The model of [to_sorted_semantic] fails on a version that is not a
    semantic version only, and hands back the versions it was given. *)
Lemma to_sorted_semantic_error (versions : list str) :
  Semver.to_sorted_semantic versions <> Error StopIteration.
Proof.
  unfold Semver.to_sorted_semantic.
  destruct (mapM _ versions) as [parsed|e] eqn:E; simpl; [discriminate|].
  intros [= ->].
  apply (mapM_error _ (fun e => e = InvalidSemanticVersion)) in E;
    [discriminate|].
  intros a e. destruct (Semver.to_semantic a) as [x|e'] eqn:Ea; simpl;
    [discriminate|].
  intros [= <-]. exact (to_semantic_error _ _ Ea).
Qed.

Lemma to_sorted_semantic_last (versions : list str)
    (sorted : list (str * value)) (last : str * value) :
  Semver.to_sorted_semantic versions = Ok sorted ->
  last_item sorted = Ok last -> In (fst last) versions.
Proof.
  unfold Semver.to_sorted_semantic.
  destruct (mapM _ versions) as [parsed|e] eqn:E; simpl; [|discriminate].
  intros [= <-] Hl. apply last_item_in in Hl.
  apply in_map_iff in Hl as (p & <- & Hp). simpl.
  apply semver_sorted_in in Hp as [[]|Hp].
  destruct (mapM_in _ _ _ _ E Hp) as (v & Hv & Hf).
  destruct (Semver.to_semantic v); [|discriminate].
  simpl in Hf. injection Hf as <-. exact Hv.
Qed.

Lemma carry_forward_extends_witness :
  dict_get (Py.lit "psf/black") (carry_forward Sample.prior Sample.qualified)
  = dict_get (Py.lit "psf/black") Sample.qualified.
Proof.
  destruct (carry_forward_extends Sample.prior Sample.qualified)
    as (carried & _ & _ & H).
  apply H. simpl. auto.
Defined.

Lemma carry_forward_covers_witness :
  NoDup (keys (carry_forward Sample.prior Sample.qualified))
  /\ any_match (Py.lit "ab") (carry_forward Sample.prior Sample.qualified)
     = true.
Proof.
  destruct (carry_forward_covers Sample.prior Sample.qualified) as [Hn Hc].
  split.
  - apply Hn. simpl. constructor; [intros [] | constructor].
  - apply Hc. simpl. auto.
Defined.

Lemma parse_pull_request_body_unmarked_witness :
  parse_pull_request_body no_table Sample.unmarked_body = [].
Proof.
  apply (parse_pull_request_body_unmarked no_table Sample.unmarked_body).
  intros l Hl E. vm_compute in Hl.
  destruct Hl as [<-|[<-|[]]]; vm_compute in E; discriminate E.
Defined.

(** The changelog that records the hook under [added] has no section
    [repository]: the parser gives it one. *)
Lemma parse_changelog_side_effect_witness :
  exists changelog' entry,
    parse_changelog no_table Sample.added_changelog Sample.repository
    = Ok (changelog', ([], []))
    /\ dict_get unreleased Sample.added_changelog = Some (VDict entry)
    /\ changelog'
       = dict_set unreleased
                  (VDict (entry ++ [(Sample.repository, VList [])]))
                  Sample.added_changelog.
Proof.
  destruct (parse_changelog no_table Sample.added_changelog Sample.repository)
    as [[changelog' r]|e] eqn:E; [|vm_compute in E; discriminate E].
  destruct (parse_changelog_side_effect no_table _ _ _ _ E)
    as (entry & Hu & [(Hsome & _)|(_ & -> & ->)]).
  - exfalso. vm_compute in Hu. injection Hu as <-. apply Hsome. reflexivity.
  - exists (dict_set unreleased
                     (VDict (entry ++ [(Sample.repository, VList [])]))
                     Sample.added_changelog), entry.
    split; [reflexivity|]. split; [exact Hu | reflexivity].
Defined.

Lemma get_changelog_has_unreleased_witness :
  dict_mem unreleased Sample.one_release_loaded = true
  /\ parse_changelog no_table Sample.one_release_loaded Sample.repository
     <> Error KeyError.
Proof.
  destruct (get_changelog_has_unreleased
              no_table (reads_as Sample.one_release) Semver.to_sorted_semantic
              Sample.path true Sample.one_release_loaded)
    as (Hm & _ & Hp); [reflexivity|].
  split; [exact Hm | apply Hp].
Defined.

Lemma get_changelog_finds_version_witness :
  get_changelog (reads_as Sample.candidate_first) Semver.to_sorted_semantic
                Sample.path true
  <> Error StopIteration.
Proof.
  apply (get_changelog_finds_version
           (reads_as Sample.candidate_first) Semver.to_sorted_semantic
           Sample.path true).
  - discriminate.
  - exact to_sorted_semantic_error.
  - exact to_sorted_semantic_last.
Defined.

Lemma udpate_changelog_frame_witness :
  exists changelog',
    udpate_changelog_from_pr_body
      no_table (reads_as Sample.black_changelog) Semver.to_sorted_semantic
      Sample.path Sample.label_body Sample.repository
    = Ok (Sample.path, changelog')
    /\ keys changelog' = keys Sample.black_changelog
    /\ dict_get (Py.lit "1.0.0") changelog'
       = dict_get (Py.lit "1.0.0") Sample.black_changelog.
Proof.
  destruct (udpate_changelog_from_pr_body
              no_table (reads_as Sample.black_changelog)
              Semver.to_sorted_semantic
              Sample.path Sample.label_body Sample.repository)
    as [[written changelog']|e] eqn:E; [|vm_compute in E; discriminate E].
  destruct (udpate_changelog_frame _ _ _ _ _ _ _ _ E)
    as (-> & changelog & entry & entry' & Hg & Hk & Hother & _).
  vm_compute in Hg. injection Hg as <-.
  exists changelog'. split; [reflexivity|]. split; [exact Hk|].
  apply Hother. discriminate.
Defined.

Lemma udpate_changelog_creates_unreleased_witness :
  exists version_name,
    udpate_changelog_from_pr_body
      no_table (reads_as Sample.one_release) Semver.to_sorted_semantic
      Sample.path Sample.label_body Sample.repository
    = Ok (Sample.path,
          (unreleased,
           VDict [(metadata,
                   VDict [(Py.lit "release_data", VNone);
                          (Py.lit "url", VStr (compare_url version_name));
                          (version, VStr unreleased)]);
                  (Sample.repository,
                   VList (generated_lines
                            (parse_pull_request_body no_table
                                                     Sample.label_body)))])
          :: Sample.one_release).
Proof.
  apply (udpate_changelog_creates_unreleased
           no_table (reads_as Sample.one_release) Semver.to_sorted_semantic
           Sample.path Sample.label_body Sample.repository
           Sample.one_release Sample.one_release_loaded).
  - reflexivity.
  - reflexivity.
  - reflexivity.
  - discriminate.
Defined.

Lemma three_hooks_readable (name number : str) :
  dict_get name Sample.three_hooks = Some number ->
  name <> [] /\ Forall (fun c => hook_name_char c = true) name
  /\ dotted_number number.
Proof.
  unfold Sample.three_hooks. cbn [dict_get].
  destruct (eqb_spec name (Py.lit "psf/black")) as [->|_].
  { intros [= <-]. split; [discriminate|]. split; [repeat constructor|].
    exists (Py.lit "23"), [Py.lit "0"; Py.lit "0"].
    split; [reflexivity|]. split; [discriminate|].
    split; [repeat constructor|]. split; [simpl; lia|].
    repeat constructor; discriminate. }
  destruct (eqb_spec name (Py.lit "PyCQA/flake8")) as [->|_].
  { intros [= <-]. split; [discriminate|]. split; [repeat constructor|].
    exists (Py.lit "6"), [Py.lit "0"; Py.lit "0"].
    split; [reflexivity|]. split; [discriminate|].
    split; [repeat constructor|]. split; [simpl; lia|].
    repeat constructor; discriminate. }
  destruct (eqb_spec name (Py.lit "asottile/pyupgrade")) as [->|_];
    [|discriminate].
  intros [= <-]. split; [discriminate|]. split; [repeat constructor|].
  exists (Py.lit "3"), [Py.lit "3"; Py.lit "1"].
  split; [reflexivity|]. split; [discriminate|].
  split; [repeat constructor|]. split; [simpl; lia|].
  repeat constructor; discriminate.
Qed.

Lemma parse_changelog_reads_back_witness :
  exists hook_data,
    parse_changelog no_table Sample.generated_changelog Sample.repository
    = Ok (Sample.generated_changelog, ([], hook_data))
    /\ dict_get (Py.lit "PyCQA/flake8") hook_data = Some (Py.lit "6.0.0").
Proof.
  destruct (parse_changelog_reads_back
              no_table Sample.generated_changelog Sample.repository _
              Sample.three_hooks eq_refl eq_refl three_hooks_readable)
    as (hook_data & Hp & Hsame).
  exists hook_data. split; [exact Hp|]. rewrite Hsame. reflexivity.
Defined.

(** The pull request line for [yamllint.git] records that name; the line
    generated for it is kept as a line of text by the next run. *)
Lemma odd_name_not_read_back_witness :
  parse_line no_table Sample.yamllint_line
  = Some (Sample.yamllint, Py.lit "1.26.3")
  /\ parse_item no_table ([], [])
                (update_line Sample.yamllint_record Sample.yamllint)
     = ([update_line Sample.yamllint_record Sample.yamllint], []).
Proof.
  split; [vm_compute; reflexivity|].
  apply (odd_name_not_read_back
           no_table Sample.yamllint_record Sample.yamllint
           (Py.lit "adrienverge/yamllint") (Py.lit "git") (ch ".") ([], [])).
  - reflexivity.
  - repeat constructor.
  - reflexivity.
  - discriminate.
Defined.

(* ------------------------------------------------------------------ *)
(** ** What the update leaves of the section *)

Section SectionFacts.

Variable unicode_alnum : N -> bool.
Variable to_dict : str -> bool -> result (dict value).
Variable to_sorted_semantic : list str -> result (list (str * value)).

(** The update of a target section that is a list of lines: the section
    written starts with the non-empty lines that are not hook lines, in
    their order, and goes on with the lines generated from a record whose
    every name is recorded by a line of the pull request body or by a hook
    line of the section. *)
Theorem udpate_changelog_keeps_other_lines
    path pr_body target_section changelog entry items :
  to_dict path true = Ok changelog ->
  dict_get unreleased changelog = Some (VDict entry) ->
  dict_get target_section entry = Some (VList items) ->
  exists changelog' entry' merged,
    udpate_changelog_from_pr_body unicode_alnum to_dict to_sorted_semantic
                                  path pr_body target_section
    = Ok (path, changelog')
    /\ dict_get unreleased changelog' = Some (VDict entry')
    /\ dict_get target_section entry'
       = Some (VList (filter (fun item =>
                                match changelog_hook unicode_alnum item with
                                | Some _ => false
                                | None => negb (Py.eqb item [])
                                end) items
                      ++ generated_lines merged))
    /\ forall name,
         In name (keys merged) ->
         (exists line v,
             In line (Py.splitlines pr_body)
             /\ parse_line unicode_alnum line = Some (name, v))
         \/ (exists item v,
                In item items
                /\ changelog_hook unicode_alnum item = Some (name, v)).
Proof.
  intros Hd Hu Ht.
  rewrite (udpate_changelog_from_pr_body_section
             unicode_alnum to_dict to_sorted_semantic _ pr_body _ _ _ _
             Hd Hu Ht).
  cbv zeta. rewrite parse_items_content. cbn [fst app].
  eexists _, _, _. split; [reflexivity|].
  split; [apply dict_get_set_same|]. split; [apply dict_get_set_same|].
  intros name Hname. apply carry_forward_keys in Hname as [H|H].
  - left. apply scan_lines_keys in H as [[]|H]. exact H.
  - right. apply parse_items_keys in H as [[]|H]. exact H.
Qed.

End SectionFacts.

(** The section of the twice-recorded changelog keeps its note. *)
Lemma udpate_changelog_keeps_other_lines_witness :
  exists merged,
    Sample.written_section
      (udpate_changelog_from_pr_body
         no_table (reads_as Sample.twice_changelog) Semver.to_sorted_semantic
         Sample.path Sample.label_body Sample.repository)
      Sample.repository
    = Some (VList (Sample.note_item :: generated_lines merged)).
Proof.
  destruct (udpate_changelog_keeps_other_lines
              no_table (reads_as Sample.twice_changelog)
              Semver.to_sorted_semantic
              Sample.path Sample.label_body Sample.repository
              Sample.twice_changelog _ _ eq_refl eq_refl eq_refl)
    as (changelog' & entry' & merged & -> & Hu & Ht & _).
  exists merged. unfold Sample.written_section. rewrite Hu, Ht.
  reflexivity.
Defined.
